(** * Evaluation harness of python-chebai: vocabulary aligner, inference
      runner, metrics and the constants check of the CI workflow.

    The development follows the notebook
    [tutorials/process_results_old_chebi.ipynb] (class-vocabulary aligner and
    [evaluate_model]), the notebook calling [print_metrics] and the
    "Verify Constants" workflow. *)

From Stdlib Require Import QArith Lqa Lia Ascii String DecimalString.
From stdpp Require Import base list strings gmap.

Local Open Scope string_scope.
Local Open Scope list_scope.
Local Open Scope nat_scope.

(** ** Errors raised by the Python code, and the error monad threading them *)

Inductive py_error : Type :=
| IndexError      (* boolean mask whose shape does not fit the indexed tensor *)
| RuntimeError    (* torch.cat on an empty list / on tensors of unequal width;
                     a metric called on targets outside {0,1} *)
| ValueError.     (* a metric constructed for fewer than two labels *)

Inductive result (A : Type) : Type :=
| Ok (a : A)
| Raise (e : py_error).
Arguments Ok {A} a.
Arguments Raise {A} e.

#[global] Instance result_ret : MRet result := λ A a, Ok a.
#[global] Instance result_bind : MBind result := λ A B k m,
  match m with
  | Ok a => k a
  | Raise e => Raise e
  end.

#[global] Instance py_error_eq_dec : EqDecision py_error.
Proof. solve_decision. Defined.

(** [str(n)] for a natural number. *)
Definition string_of_nat (n : nat) : string := NilEmpty.string_of_uint (Nat.to_uint n).

(** ** Class-vocabulary aligner (notebook cells reading the two class files) *)

Module Aligner.

(** [file.readlines()]: the text is cut after every newline, each line keeps
    its terminator, and a last unterminated line is kept when non-empty. *)
Definition newline : ascii := "010"%char.

Fixpoint readlines_from (cur : string) (text : string) : list string :=
  match text with
  | EmptyString => if String.eqb cur "" then [] else [cur]
  | String c rest =>
      if Ascii.eqb c newline
      then (cur +:+ String c "") :: readlines_from "" rest
      else readlines_from (cur +:+ String c "") rest
  end.

Definition readlines (text : string) : list string := readlines_from "" text.

(** A text without line terminator, such as a class identifier. *)
Fixpoint newline_free (s : string) : bool :=
  match s with
  | EmptyString => true
  | String c s' => negb (Ascii.eqb c newline) && newline_free s'
  end.

(** Python's [x in l] for a list of [str]: a left-to-right scan with [==]. *)
Fixpoint py_in (x : string) (l : list string) : bool :=
  match l with
  | [] => false
  | y :: l' => if String.eqb y x then true else py_in x l'
  end.

(** The loop
    [for v200_class in v200_classes:
        if v200_class in v148_classes: common_classes.append(v200_class)]. *)
Definition common_classes (v200_classes v148_classes : list string) : list string :=
  fold_left
    (λ common v200_class,
       if py_in v200_class v148_classes then common ++ [v200_class] else common)
    v200_classes [].

(** [torch.tensor([[c in common_classes for c in v200_classes]])]: a boolean
    tensor with one row. *)
Definition common_classes_mask_v200 (v200_classes v148_classes : list string)
  : list (list bool) :=
  [ map (λ c, py_in c (common_classes v200_classes v148_classes)) v200_classes ].

Definition common_classes_mask_v148 (v200_classes v148_classes : list string)
  : list (list bool) :=
  [ map (λ c, py_in c (common_classes v200_classes v148_classes)) v148_classes ].

(** [mask.sum()]: the number of true entries of a boolean tensor. *)
Definition mask_sum (mask : list (list bool)) : nat :=
  length (filter (λ b, b = true) (concat mask)).

(** Entry [i] of the single row of a mask. *)
Definition mask_entry (mask : list (list bool)) (i : nat) : option bool :=
  row ← mask !! 0%nat; row !! i.

(** A vocabulary of [size] numeric identifiers counting up from [first], one
    per line as [readlines] delivers them. *)
Definition numbered_classes (first size : nat) : list string :=
  map (λ n, string_of_nat n +:+ String newline "") (seq first size).

End Aligner.

(** ** The tensor operations of torch that [evaluate_model] uses

    A two-dimensional tensor is the list of its rows; a one-dimensional tensor
    is a list. *)

Module Torch.

Abbreviation tensor2 V := (list (list V)) (only parsing).

(** The widths of the rows: two rectangular tensors have the same shape
    exactly when these lists agree. *)
Definition row_widths {V} (t : tensor2 V) : list nat := length <$> t.

(** [t.shape[0]] and [t.shape[1]] of a tensor with at least one row. *)
Definition shape0 {V} (t : tensor2 V) : nat := length t.
Definition shape1 {V} (t : tensor2 V) : nat :=
  match t with
  | [] => 0
  | row :: _ => length row
  end.

(** The entries of [row] at the true positions of [mrow]. *)
Fixpoint select {V} (row : list V) (mrow : list bool) : list V :=
  match row, mrow with
  | x :: row', b :: mrow' => if b then x :: select row' mrow' else select row' mrow'
  | _, _ => []
  end.

(** [t[mask]] for a boolean [mask] with as many dimensions as [t]: the shapes
    must agree (IndexError otherwise); the selected entries come out as a
    one-dimensional tensor in row-major order. *)
Definition bool_index {V} (t : tensor2 V) (mask : tensor2 bool) : result (list V) :=
  if decide (row_widths t = row_widths mask)
  then Ok (concat (zip_with select t mask))
  else Raise IndexError.

(** [v.unsqueeze(0)]: a one-row tensor. *)
Definition unsqueeze0 {V} (v : list V) : tensor2 V := [v].

(** All rows of all tensors of the list have one width. *)
Definition same_width {V} (ts : list (tensor2 V)) : bool :=
  match concat ts with
  | [] => true
  | row :: rows => forallb (λ r, Nat.eqb (length r) (length row)) rows
  end.

(** [torch.cat(ts)] along dimension 0: refuses the empty list and tensors of
    different widths, otherwise stacks the rows in order. *)
Definition cat {V} (ts : list (tensor2 V)) : result (tensor2 V) :=
  match ts with
  | [] => Raise RuntimeError
  | _ => if same_width ts then Ok (concat ts) else Raise RuntimeError
  end.

(** [t[:, c]] *)
Definition column {V} (c : nat) (t : tensor2 V) : list V :=
  omap (λ row : list V, row !! c) t.

End Torch.

(** ** Multi-label metrics *)

Module Metrics.
Import Torch.

(** Modelled from the spec: the metric object [MultilabelF1Score] that
    [evaluate_model] constructs and calls is external and not part of the
    sources; section 4.3 fixes what it computes.  Predictions are
    probabilities and count as positive above one half; labels are 0/1 and
    positive when 1. *)
Definition predicted_positive (p : Q) : bool := negb (Qle_bool p (1 # 2)).
Definition actual_positive (l : Z) : bool := Z.eqb l 1.

Definition Qnat (n : nat) : Q := inject_Z (Z.of_nat n).

(** Modelled from the spec: precision of a class is TP/(TP+FP), and 0 if
    there are no predicted positives. *)
Definition precision (tp fp : nat) : Q :=
  if Nat.eqb (tp + fp) 0 then 0%Q else (Qnat tp / Qnat (tp + fp))%Q.

(** Modelled from the spec: recall of a class is TP/(TP+FN), and 0 if there
    are no actual positives. *)
Definition recall (tp fn : nat) : Q :=
  if Nat.eqb (tp + fn) 0 then 0%Q else (Qnat tp / Qnat (tp + fn))%Q.

(** Modelled from the spec: F1 of a class is the harmonic mean of precision
    and recall, and 0 if both are 0. *)
Definition harmonic_mean (p r : Q) : Q :=
  if Qeq_bool p 0 && Qeq_bool r 0 then 0%Q else (2 * p * r / (p + r))%Q.

Definition f1_score (tp fp fn : nat) : Q :=
  harmonic_mean (precision tp fp) (recall tp fn).

(** Confusion counts of class [c]: the rows are paired up and counted. *)
Definition count_rows (test : bool → bool → bool) (c : nat)
    (preds : tensor2 Q) (target : tensor2 Z) : nat :=
  length (filter (λ pl : Q * Z, test (predicted_positive pl.1) (actual_positive pl.2) = true)
            (zip (column c preds) (column c target))).

Definition TP := count_rows (λ p a, p && a).
Definition FP := count_rows (λ p a, p && negb a).
Definition FN := count_rows (λ p a, negb p && a).

Definition classwise_f1 (num_labels : nat) (preds : tensor2 Q) (target : tensor2 Z)
  : list Q :=
  map (λ c, f1_score (TP c preds target) (FP c preds target) (FN c preds target))
      (seq 0 num_labels).

Definition Qsum (l : list Q) : Q := foldr Qplus 0%Q l.
Definition nat_sum (l : list nat) : nat := foldr Nat.add 0%nat l.

Inductive average : Type := macro | micro.

(** Modelled from the spec: [MultilabelF1Score(num_labels, average=...)]
    applied to [(preds, target)]; macro-F1 is the unweighted mean of the
    per-class F1 and micro-F1 is the F1 of the counts summed over all
    classes.  The mean of no class at all is 0 ([Qdiv] by 0 is 0). *)
Definition MultilabelF1Score (num_labels : nat) (avg : average)
    (preds : tensor2 Q) (target : tensor2 Z) : Q :=
  match avg with
  | macro => (Qsum (classwise_f1 num_labels preds target) / Qnat num_labels)%Q
  | micro =>
      let classes := seq 0 num_labels in
      f1_score (nat_sum (map (λ c, TP c preds target) classes))
               (nat_sum (map (λ c, FP c preds target) classes))
               (nat_sum (map (λ c, FN c preds target) classes))
  end.

(** A ground-truth label is 0 or 1. *)
Definition binary (l : Z) : Prop := l = 0%Z ∨ l = 1%Z.

Definition is_binary (l : Z) : bool := Z.eqb l 0 || Z.eqb l 1.

(** The metric object and the argument checks of the external metric
    library.  The constructor [MultilabelF1Score(num_labels, average=...)]
    refuses fewer than two labels with a ValueError. *)
Record metric : Type := Metric {
  metric_labels : nat;
  metric_average : average
}.

Definition MultilabelF1Score_new (num_labels : nat) (avg : average) : result metric :=
  if Nat.ltb num_labels 2 then Raise ValueError
  else Ok {| metric_labels := num_labels; metric_average := avg |}.

(** Calling the metric object on [(preds, target)]: predictions and targets
    of different shapes are refused (RuntimeError), as are a number of
    columns other than the number of labels (ValueError) and targets with a
    value outside {0,1} (RuntimeError); otherwise the score comes out. *)
Definition metric_call (m : metric) (preds : tensor2 Q) (target : tensor2 Z) : result Q :=
  if negb (bool_decide (row_widths preds = row_widths target)) then Raise RuntimeError
  else if negb (Nat.eqb (shape1 preds) (metric_labels m)) then Raise ValueError
  else if negb (forallb (forallb is_binary) target) then Raise RuntimeError
  else Ok (MultilabelF1Score (metric_labels m) (metric_average m) preds target).

(** Labels used as predictions: the 0/1 entries read as probabilities. *)
Definition as_predictions (labels : tensor2 Z) : tensor2 Q :=
  (λ row : list Z, inject_Z <$> row) <$> labels.

End Metrics.

(** ** Inference runner: [evaluate_model] of the notebook *)

Module Runner.
Import Torch Metrics.

(** What the function has computed when it ends normally: the two
    accumulated tensors (whose shapes it prints) and the two printed scores. *)
Record report : Type := Report {
  test_preds : tensor2 Q;
  test_labels : tensor2 Z;
  f1_macro : Q;
  f1_micro : Q
}.

Section evaluate.
Context {Example : Type}.
(** The external model on a batch of the single example [row]:
    [collate([row])], [_process_batch], the forward pass and
    [_get_prediction_and_labels]; it may raise. *)
Variable model : Example → result (tensor2 Q * tensor2 Z).

(** One turn of the loop over [data_list]. *)
Definition loop_body (common_classes_mask : option (tensor2 bool))
    (lists : list (tensor2 Q) * list (tensor2 Z)) (row : Example)
  : result (list (tensor2 Q) * list (tensor2 Z)) :=
  let '(preds_list, labels_list) := lists in
  '(preds, labels) ← model row;
  match common_classes_mask with
  | Some mask =>
      preds' ← bool_index preds mask;
      labels' ← bool_index labels mask;
      Ok (preds_list ++ [unsqueeze0 preds'], labels_list ++ [unsqueeze0 labels'])
  | None => Ok (preds_list ++ [preds], labels_list ++ [labels])
  end.

Fixpoint loop (common_classes_mask : option (tensor2 bool))
    (lists : list (tensor2 Q) * list (tensor2 Z)) (data_list : list Example)
  : result (list (tensor2 Q) * list (tensor2 Z)) :=
  match data_list with
  | [] => Ok lists
  | row :: rest =>
      lists' ← loop_body common_classes_mask lists row;
      loop common_classes_mask lists' rest
  end.

(** The end of the function: both metric objects are constructed for
    [test_preds.shape[1]] labels, then called for the two printed scores. *)
Definition report_scores (test_preds : tensor2 Q) (test_labels : tensor2 Z)
  : result report :=
  macro_metric ← MultilabelF1Score_new (shape1 test_preds) macro;
  micro_metric ← MultilabelF1Score_new (shape1 test_preds) micro;
  macro_score ← metric_call macro_metric test_preds test_labels;
  micro_score ← metric_call micro_metric test_preds test_labels;
  Ok {| test_preds := test_preds;
        test_labels := test_labels;
        f1_macro := macro_score;
        f1_micro := micro_score |}.

Definition evaluate_model (common_classes_mask : option (tensor2 bool))
    (data_list : list Example) : result report :=
  '(preds_list, labels_list) ← loop common_classes_mask ([], []) data_list;
  test_preds ← cat preds_list;
  test_labels ← cat labels_list;
  report_scores test_preds test_labels.

(** The prediction row and the label row that the model yields for one
    example, and the part of a row that the optional one-row mask keeps. *)
Definition prediction_row (row : Example) : list Q :=
  match model row with
  | Ok (preds :: _, _) => preds
  | _ => []
  end.

Definition label_row (row : Example) : list Z :=
  match model row with
  | Ok (_, labels :: _) => labels
  | _ => []
  end.
End evaluate.

Definition selected {V} (common_classes_mask : option (tensor2 bool)) (row : list V)
  : list V :=
  match common_classes_mask with
  | Some mask => select row (concat mask)
  | None => row
  end.

(** Number of selected classes out of [num_classes]. *)
Definition num_selected (common_classes_mask : option (tensor2 bool)) (num_classes : nat)
  : nat :=
  match common_classes_mask with
  | Some mask => Aligner.mask_sum mask
  | None => num_classes
  end.

(** A model over numbered examples with two classes, for running the loop
    on concrete data. *)
Definition toy_model (e : nat) : result (tensor2 Q * tensor2 Z) :=
  Ok ([[inject_Z (Z.of_nat e); (1 # 4)%Q]], [[Z.of_nat e; 0%Z]]).

(** The same with a third class. *)
Definition toy_model3 (e : nat) : result (tensor2 Q * tensor2 Z) :=
  Ok ([[inject_Z (Z.of_nat e); (1 # 4)%Q; (3 # 4)%Q]], [[Z.of_nat e; 0%Z; 1%Z]]).

End Runner.

(** ** Metrics reporter: the zero-F1 list of [print_metrics] *)

Module Reporter.
Import Torch Metrics.

(** Modelled from the spec: [print_metrics] (module
    [chebai.result.classification]) is called by the notebook but its body is
    not part of the sources.  Section 4.3: it lists the classes with F1
    exactly 0 among the classes that have at least one positive label, by
    class name when names are given and by column index otherwise. *)
Definition has_positive_label (c : nat) (labels : tensor2 Z) : bool :=
  existsb actual_positive (column c labels).

Definition class_f1 (c : nat) (preds : tensor2 Q) (labels : tensor2 Z) : Q :=
  f1_score (TP c preds labels) (FP c preds labels) (FN c preds labels).

Definition zero_f1_classes (preds : tensor2 Q) (labels : tensor2 Z) : list nat :=
  filter (λ c, Qeq_bool (class_f1 c preds labels) 0 && has_positive_label c labels = true)
         (seq 0 (shape1 preds)).

Definition class_name (classes : option (list string)) (c : nat) : string :=
  match classes with
  | Some names => default "" (names !! c)
  | None => string_of_nat c
  end.

Definition zero_f1_report (classes : option (list string))
    (preds : tensor2 Q) (labels : tensor2 Z) : list string :=
  map (class_name classes) (zero_f1_classes preds labels).

End Reporter.

(** ** The "Verify constants" step of the workflow *)

Module VerifyConstants.

(** [grep -q "$file_name" changed_files.txt]: some line contains a match of
    the pattern, in which a dot stands for any character and every other
    character of this pattern for itself. *)
Fixpoint match_here (pattern line : string) : bool :=
  match pattern with
  | EmptyString => true
  | String p pattern' =>
      match line with
      | EmptyString => false
      | String c line' =>
          (Ascii.eqb p "."%char || Ascii.eqb p c) && match_here pattern' line'
      end
  end.

Fixpoint match_anywhere (pattern line : string) : bool :=
  match_here pattern line ||
  match line with
  | EmptyString => false
  | String _ line' => match_anywhere pattern line'
  end.

Definition grep_q (pattern : string) (lines : list string) : bool :=
  existsb (match_anywhere pattern) lines.

(** [$NAME]: an unset variable expands to the empty string. *)
Definition getenv (env : gmap string string) (name : string) : string :=
  default "" (env !! name).

Record outcome : Type := Outcome {
  stdout : list string;
  exit_status : nat
}.

Definition file_name : string := "chebai/preprocessing/reader.py".
Definition exp_embedding_offset : string := "10".
Definition exp_cls_token : string := "2".
Definition exp_padding_token_index : string := "0".
Definition exp_mask_token_index : string := "1".

Definition mismatch_message (name actual expected : string) : string :=
  name +:+ " (" +:+ actual +:+ ") does not match expected value (" +:+ expected +:+ ")!".

(** [if [ "$actual" != "$expected" ]; then echo ...; exit 1; fi], followed by
    the rest of the script. *)
Definition check (name actual expected : string)
    (rest : list string → outcome) (out : list string) : outcome :=
  if negb (String.eqb actual expected)
  then {| stdout := out ++ [mismatch_message name actual expected]; exit_status := 1 |}
  else rest out.

Definition verify_constants (changed_files : list string) (env : gmap string string)
  : outcome :=
  if grep_q file_name changed_files then
    let out :=
      [ "----------------------- Checking file : " +:+ file_name
          +:+ " ----------------------- ";
        "Current Environment Variables:";
        "E_EMBEDDING_OFFSET = " +:+ getenv env "E_EMBEDDING_OFFSET";
        "Expected: " +:+ exp_embedding_offset ] in
    check "EMBEDDING_OFFSET" (getenv env "E_EMBEDDING_OFFSET") exp_embedding_offset
      (check "CLS_TOKEN" (getenv env "E_CLS_TOKEN") exp_cls_token
        (check "PADDING_TOKEN_INDEX" (getenv env "E_PADDING_TOKEN_INDEX")
               exp_padding_token_index
          (check "MASK_TOKEN_INDEX" (getenv env "E_MASK_TOKEN_INDEX")
                 exp_mask_token_index
            (λ out, {| stdout := out; exit_status := 0 |}))))
      out
  else
    {| stdout := [file_name +:+ " not found in changed_files.txt; skipping check."];
       exit_status := 0 |}.

(** The four constants, their names, expected values and the values the
    workflow exported into the environment. *)
Inductive constant : Type :=
| EMBEDDING_OFFSET | CLS_TOKEN | PADDING_TOKEN_INDEX | MASK_TOKEN_INDEX.

Definition constants : list constant :=
  [EMBEDDING_OFFSET; CLS_TOKEN; PADDING_TOKEN_INDEX; MASK_TOKEN_INDEX].

Definition name (c : constant) : string :=
  match c with
  | EMBEDDING_OFFSET => "EMBEDDING_OFFSET"
  | CLS_TOKEN => "CLS_TOKEN"
  | PADDING_TOKEN_INDEX => "PADDING_TOKEN_INDEX"
  | MASK_TOKEN_INDEX => "MASK_TOKEN_INDEX"
  end.

Definition expected (c : constant) : string :=
  match c with
  | EMBEDDING_OFFSET => "10"
  | CLS_TOKEN => "2"
  | PADDING_TOKEN_INDEX => "0"
  | MASK_TOKEN_INDEX => "1"
  end.

Definition exported (env : gmap string string) (c : constant) : string :=
  getenv env ("E_" +:+ name c).

(** The first constant, in the order of the script, whose exported value is
    not the expected one. *)
Definition first_mismatch (env : gmap string string) : option constant :=
  find (λ c, negb (String.eqb (exported env c) (expected c))) constants.

(** The lines echoed before the comparisons. *)
Definition preamble (env : gmap string string) : list string :=
  [ "----------------------- Checking file : " +:+ file_name
      +:+ " ----------------------- ";
    "Current Environment Variables:";
    "E_EMBEDDING_OFFSET = " +:+ getenv env "E_EMBEDDING_OFFSET";
    "Expected: " +:+ exp_embedding_offset ].

(** Place of a constant in the order of the comparisons. *)
Definition position (c : constant) : nat :=
  match c with
  | EMBEDDING_OFFSET => 0
  | CLS_TOKEN => 1
  | PADDING_TOKEN_INDEX => 2
  | MASK_TOKEN_INDEX => 3
  end.

(** What [grep] looks for, said without the scan: [word] agrees with the
    pattern character by character, a dot of the pattern standing for any
    character, and a line contains a match when such a word occurs in it. *)
Fixpoint matches (pattern word : string) : Prop :=
  match pattern, word with
  | EmptyString, EmptyString => True
  | String p pattern', String c word' =>
      (p = "."%char ∨ p = c) ∧ matches pattern' word'
  | _, _ => False
  end.

Definition contains_match (pattern line : string) : Prop :=
  ∃ before word after, line = before +:+ word +:+ after ∧ matches pattern word.

End VerifyConstants.

(** ** Reading the class names in the results notebook *)

Module ResultsNotebook.
Import Aligner.

(** [c.isspace()] for an ASCII character: tab to carriage return, the four
    separators 28 to 31, and the space. *)
Definition py_isspace (c : ascii) : bool :=
  let n := nat_of_ascii c in
  (Nat.leb 9 n && Nat.leb n 13) || (Nat.leb 28 n && Nat.leb n 32).

(** [s.lstrip()], [s.rstrip()] and [s.strip()] on ASCII text. *)
Fixpoint lstrip (s : string) : string :=
  match s with
  | EmptyString => EmptyString
  | String c s' => if py_isspace c then lstrip s' else s
  end.

Fixpoint rstrip (s : string) : string :=
  match s with
  | EmptyString => EmptyString
  | String c s' =>
      match rstrip s' with
      | EmptyString => if py_isspace c then EmptyString else String c EmptyString
      | kept => String c kept
      end
  end.

Definition strip (s : string) : string := lstrip (rstrip s).

(** [classes = [line.strip() for line in f.readlines()]] *)
Definition read_classes (text : string) : list string :=
  map strip (readlines text).

(** A name made of ASCII characters none of which is white space. *)
Fixpoint plain (s : string) : bool :=
  match s with
  | EmptyString => true
  | String c s' =>
      negb (py_isspace c) && Nat.ltb (nat_of_ascii c) 128 && plain s'
  end.

(** The text ends with a line terminator. *)
Fixpoint ends_with_newline (s : string) : bool :=
  match s with
  | EmptyString => false
  | String c s' =>
      match s' with
      | EmptyString => Ascii.eqb c newline
      | String _ _ => ends_with_newline s'
      end
  end.

(** A classes file: every name followed by a newline. *)
Definition lines_of (names : list string) : string :=
  foldr (λ name rest, name +:+ String newline rest) "" names.

End ResultsNotebook.

(** * Properties *)

(** ** The definitions on small inputs *)

Section examples.
Import Aligner Torch Metrics Runner Reporter VerifyConstants.

Example readlines_keeps_terminators :
  readlines ("23367" +:+ String newline "33259")
  = ["23367" +:+ String newline ""; "33259"].
Proof. reflexivity. Qed.

Example common_classes_follows_first :
  common_classes ["36914"; "24431"; "23367"; "36914"] ["23367"; "36914"]
  = ["36914"; "23367"; "36914"].
Proof. reflexivity. Qed.

Example bool_index_selects :
  bool_index [[1; 2; 3]] [[true; false; true]] = Ok [1; 3].
Proof. reflexivity. Qed.

Example bool_index_shape_mismatch :
  bool_index [[1; 2; 3]] [[true; false]] = Raise IndexError.
Proof. reflexivity. Qed.

Example cat_stacks_rows : cat [[[1; 2]]; [[3; 4]; [5; 6]]] = Ok [[1; 2]; [3; 4]; [5; 6]].
Proof. reflexivity. Qed.

Example cat_width_mismatch : cat [[[1; 2]]; [[3]]] = Raise RuntimeError.
Proof. reflexivity. Qed.

Example evaluate_model_masked_run :
  match evaluate_model toy_model3 (Some [[true; false; true]]) [1; 0; 1] with
  | Ok r => test_preds r = [[1; 3 # 4]; [0; 3 # 4]; [1; 3 # 4]]%Q
            ∧ test_labels r = [[1; 1]; [0; 1]; [1; 1]]%Z
  | Raise _ => False
  end.
Proof. split; reflexivity. Qed.

Example evaluate_model_one_class :
  evaluate_model toy_model (Some [[true; false]]) [1; 0; 1] = Raise ValueError.
Proof. reflexivity. Qed.

Example evaluate_model_label_two :
  evaluate_model toy_model None [1; 2] = Raise RuntimeError.
Proof. reflexivity. Qed.

Example evaluate_model_mask_too_short :
  evaluate_model toy_model (Some [[true]]) [1; 0; 1] = Raise IndexError.
Proof. reflexivity. Qed.

Example f1_of_two_one_zero : Qred (f1_score 2 1 0) = (4 # 5)%Q.
Proof. reflexivity. Qed.

Example grep_dot_is_a_wildcard :
  grep_q file_name ["docs/chebai/preprocessing/reader_py.bak"] = true.
Proof. reflexivity. Qed.

Example verify_constants_skips_unchanged :
  verify_constants ["README.md"] ∅
  = {| stdout := ["chebai/preprocessing/reader.py not found in changed_files.txt; skipping check."];
       exit_status := 0 |}.
Proof. reflexivity. Qed.

Example verify_constants_unset_variable :
  verify_constants ["chebai/preprocessing/reader.py"] ∅
  = {| stdout := preamble ∅
                 ++ ["EMBEDDING_OFFSET () does not match expected value (10)!"];
       exit_status := 1 |}.
Proof. reflexivity. Qed.

End examples.

(** ** Vocabulary aligner *)

Section aligner_facts.
Import Aligner.

Lemma py_in_spec (x : string) (l : list string) : py_in x l = bool_decide (x ∈ l).
Proof.
  induction l as [|y l IH]; cbn [py_in].
  - symmetry. apply bool_decide_eq_false_2. apply not_elem_of_nil.
  - destruct (String.eqb_spec y x) as [->|Hne].
    + symmetry. apply bool_decide_eq_true_2. left.
    + rewrite IH. apply bool_decide_ext. rewrite elem_of_cons. split; [auto|]. intros [->|?]; [done|auto].
Qed.

Lemma py_in_true (x : string) (l : list string) : py_in x l = true ↔ x ∈ l.
Proof. rewrite py_in_spec. apply bool_decide_eq_true. Qed.

(** The loop appends to what it has collected so far. *)
Lemma common_classes_loop (B A acc : list string) :
  fold_left
    (λ common v200_class,
       if py_in v200_class B then common ++ [v200_class] else common) A acc
  = acc ++ filter (λ x, x ∈ B) A.
Proof.
  revert acc. induction A as [|a A IH]; intros acc; simpl.
  - by rewrite app_nil_r.
  - rewrite IH. rewrite filter_cons. rewrite py_in_spec.
    case_bool_decide; case_decide; try done.
    by rewrite <- app_assoc.
Qed.

Lemma common_classes_filter (A B : list string) :
  common_classes A B = filter (λ x, x ∈ B) A.
Proof. unfold common_classes. by rewrite common_classes_loop. Qed.

Lemma elem_of_common_classes (A B : list string) (x : string) :
  x ∈ common_classes A B ↔ x ∈ A ∧ x ∈ B.
Proof. rewrite common_classes_filter, list_elem_of_filter. tauto. Qed.

Lemma mask_sum_row (P : string → Prop) `{!∀ x, Decision (P x)} (l : list string) :
  mask_sum [map (λ c, bool_decide (P c)) l] = length (filter P l).
Proof.
  unfold mask_sum. simpl. rewrite app_nil_r.
  induction l as [|x l IH]; [done|].
  cbn [map]. rewrite !filter_cons.
  destruct (decide (P x)) as [HP|HP].
  - rewrite (bool_decide_eq_true_2 _ HP). rewrite decide_True by done.
    cbn [length]. by rewrite IH.
  - rewrite (bool_decide_eq_false_2 _ HP). rewrite decide_False by done. done.
Qed.

Lemma mask_v200_row (A B : list string) :
  common_classes_mask_v200 A B = [map (λ a, bool_decide (a ∈ common_classes A B)) A].
Proof.
  unfold common_classes_mask_v200. f_equal. apply List.map_ext. intros a. apply py_in_spec.
Qed.

Lemma mask_v148_row (A B : list string) :
  common_classes_mask_v148 A B = [map (λ b, bool_decide (b ∈ common_classes A B)) B].
Proof.
  unfold common_classes_mask_v148. f_equal. apply List.map_ext. intros a. apply py_in_spec.
Qed.

(** C1: the aligner returns the elements of A that occur in B, in A's order,
    and the two masks say, index by index, whether the entry of A (of B) is
    in that list. *)
Theorem aligner_contract (A B : list string) :
  common_classes A B = filter (λ x, x ∈ B) A ∧
  common_classes_mask_v200 A B = [map (λ a, bool_decide (a ∈ common_classes A B)) A] ∧
  common_classes_mask_v148 A B = [map (λ b, bool_decide (b ∈ common_classes A B)) B] ∧
  (∀ i a, A !! i = Some a →
     mask_entry (common_classes_mask_v200 A B) i = Some (bool_decide (a ∈ common_classes A B))) ∧
  (∀ i b, B !! i = Some b →
     mask_entry (common_classes_mask_v148 A B) i = Some (bool_decide (b ∈ common_classes A B))).
Proof.
  split; [apply common_classes_filter|].
  split; [apply mask_v200_row|].
  split; [apply mask_v148_row|].
  split.
  - intros i a Hi. rewrite mask_v200_row. unfold mask_entry. simpl.
    rewrite list_lookup_fmap, Hi. done.
  - intros i b Hi. rewrite mask_v148_row. unfold mask_entry. simpl.
    rewrite list_lookup_fmap, Hi. done.
Qed.

Lemma aligner_contract_witness :
  mask_entry (common_classes_mask_v200 ["23367"; "33259"; "36914"] ["36914"; "23367"]) 1
    = Some (bool_decide ("33259" ∈ common_classes ["23367"; "33259"; "36914"] ["36914"; "23367"]))
  ∧ mask_entry (common_classes_mask_v148 ["23367"; "33259"; "36914"] ["36914"; "23367"]) 0
    = Some (bool_decide ("36914" ∈ common_classes ["23367"; "33259"; "36914"] ["36914"; "23367"])).
Proof.
  destruct (aligner_contract ["23367"; "33259"; "36914"] ["36914"; "23367"])
    as (_ & _ & _ & HA & HB).
  split; [apply HA | apply HB]; reflexivity.
Defined.


(** C2, as stated, fails when an identifier is listed twice: the repeated
    entry is counted twice in [common] and in the mask of A, once in the mask
    of B. *)
Lemma aligner_counts_counterexample :
  ¬ (let A := ["23367"; "23367"] in
     let B := ["23367"] in
     common_classes A B ⊆ A ∧ common_classes A B ⊆ B ∧
     mask_sum (common_classes_mask_v200 A B) = length (common_classes A B) ∧
     length (common_classes A B) = mask_sum (common_classes_mask_v148 A B)).
Proof. intros (_ & _ & _ & H). vm_compute in H. discriminate H. Qed.

Lemma filter_agree (P Q : string → Prop) `{!∀ x, Decision (P x)} `{!∀ x, Decision (Q x)}
    (l : list string) :
  (∀ x, x ∈ l → (P x ↔ Q x)) → filter P l = filter Q l.
Proof.
  induction l as [|x l IH]; intros HPQ; [done|].
  rewrite !filter_cons.
  assert (filter P l = filter Q l) as -> by (apply IH; intros y Hy; apply HPQ; by right).
  pose proof (HPQ x ltac:(left)) as Hx.
  destruct (decide (P x)), (decide (Q x)); tauto.
Qed.

Lemma mask_v200_sum (A B : list string) :
  mask_sum (common_classes_mask_v200 A B) = length (common_classes A B).
Proof.
  rewrite mask_v200_row, mask_sum_row. rewrite (common_classes_filter A B) at 1.
  f_equal. apply filter_agree. intros a Ha. rewrite elem_of_common_classes. tauto.
Qed.

Lemma mask_v148_sum (A B : list string) :
  mask_sum (common_classes_mask_v148 A B) = length (filter (λ b, b ∈ A) B).
Proof.
  rewrite mask_v148_row, mask_sum_row.
  f_equal. apply filter_agree. intros b Hb. rewrite elem_of_common_classes. tauto.
Qed.

(** Without repetitions both filtered lists enumerate the intersection. *)
Lemma intersection_length (A B : list string) :
  NoDup A → NoDup B →
  length (filter (λ a, a ∈ B) A) = length (filter (λ b, b ∈ A) B).
Proof.
  intros HA HB. apply Permutation_length. apply NoDup_Permutation.
  - by apply NoDup_filter.
  - by apply NoDup_filter.
  - intros x. rewrite !list_elem_of_filter. tauto.
Qed.

(** C2 (amended): [common] is a subset of both vocabularies and the mask of A
    has as many true entries as [common] has elements; when no identifier is
    repeated in A or in B the mask of B has that many too, so vocabularies of
    sizes 854 and 709 with 701 common identifiers give popcount 701 twice. *)
Theorem aligner_counts (A B : list string) :
  common_classes A B ⊆ A ∧ common_classes A B ⊆ B ∧
  mask_sum (common_classes_mask_v200 A B) = length (common_classes A B) ∧
  (NoDup A → NoDup B →
     length (common_classes A B) = mask_sum (common_classes_mask_v148 A B)) ∧
  (NoDup A → NoDup B →
     length A = 854 → length B = 709 → length (common_classes A B) = 701 →
     mask_sum (common_classes_mask_v200 A B) = 701 ∧
     mask_sum (common_classes_mask_v148 A B) = 701).
Proof.
  assert (NoDup A → NoDup B →
          length (common_classes A B) = mask_sum (common_classes_mask_v148 A B)) as Hboth.
  { intros HA HB. rewrite mask_v148_sum, common_classes_filter.
    by apply intersection_length. }
  split; [intros x Hx; by apply elem_of_common_classes in Hx as [? ?]|].
  split; [intros x Hx; by apply elem_of_common_classes in Hx as [? ?]|].
  split; [apply mask_v200_sum|].
  split; [exact Hboth|].
  intros HA HB _ _ Hcommon. rewrite mask_v200_sum, <- Hboth by done. done.
Qed.

Lemma vocab_854_NoDup : NoDup (numbered_classes 0 854).
Proof. apply (bool_decide_unpack (NoDup _)). vm_compute. exact I. Qed.

Lemma vocab_709_NoDup : NoDup (numbered_classes 153 709).
Proof. apply (bool_decide_unpack (NoDup _)). vm_compute. exact I. Qed.

Lemma aligner_counts_witness :
  let A := numbered_classes 0 854 in
  let B := numbered_classes 153 709 in
  length A = 854 ∧ length B = 709 ∧ length (common_classes A B) = 701 ∧
  mask_sum (common_classes_mask_v200 A B) = 701 ∧
  mask_sum (common_classes_mask_v148 A B) = 701.
Proof.
  intros A B.
  assert (length A = 854) as HlA by (vm_compute; reflexivity).
  assert (length B = 709) as HlB by (vm_compute; reflexivity).
  assert (length (common_classes A B) = 701) as Hc by (vm_compute; reflexivity).
  split; [exact HlA|]. split; [exact HlB|]. split; [exact Hc|].
  exact (proj2 (proj2 (proj2 (proj2 (aligner_counts A B))))
           vocab_854_NoDup vocab_709_NoDup HlA HlB Hc).
Defined.

(** *** Raw lines keep their terminator *)

Lemma string_app_nil_l (b : string) : "" +:+ b = b.
Proof. reflexivity. Qed.

Lemma string_app_cons (x : ascii) (a b : string) :
  String x a +:+ b = String x (a +:+ b).
Proof. reflexivity. Qed.

Lemma string_app_assoc (a b c : string) : (a +:+ b) +:+ c = a +:+ (b +:+ c).
Proof.
  induction a as [|x a IH]; [done|]. rewrite !string_app_cons. by f_equal.
Qed.

Lemma string_app_empty_r (a : string) : a +:+ "" = a.
Proof. induction a as [|x a IH]; [done|]. rewrite string_app_cons. by f_equal. Qed.

Lemma newline_free_app (a b : string) :
  newline_free (a +:+ b) = newline_free a && newline_free b.
Proof.
  induction a as [|x a IH]; [done|].
  rewrite string_app_cons. cbn [newline_free]. rewrite IH. by rewrite andb_assoc.
Qed.

Lemma terminated_not_newline_free (a : string) :
  newline_free (a +:+ String newline "") = false.
Proof. rewrite newline_free_app. apply andb_false_r. Qed.

Lemma terminator_cancel (a b : string) :
  a +:+ String newline "" = b +:+ String newline "" → a = b.
Proof.
  revert b. induction a as [|x a IH]; intros [|y b];
    rewrite ?string_app_cons, ?string_app_nil_l; intros H.
  - done.
  - injection H as _ H. destruct b; discriminate H.
  - injection H as _ H. destruct a; discriminate H.
  - injection H as -> H. f_equal. by apply IH.
Qed.

(** Reading a stretch without newline only extends the current line. *)
Lemma readlines_from_newline_free (s cur rest : string) :
  newline_free s = true →
  readlines_from cur (s +:+ rest) = readlines_from (cur +:+ s) rest.
Proof.
  revert cur. induction s as [|c s IH]; intros cur Hs.
  - by rewrite string_app_empty_r.
  - cbn [newline_free] in Hs. apply andb_true_iff in Hs as [Hc Hs].
    apply negb_true_iff in Hc.
    rewrite string_app_cons. cbn [readlines_from]. rewrite Hc. rewrite IH by done.
    by rewrite string_app_assoc.
Qed.

Lemma readlines_from_line (s cur rest : string) :
  newline_free s = true →
  readlines_from cur (s +:+ String newline rest)
  = (cur +:+ s +:+ String newline "") :: readlines_from "" rest.
Proof.
  intros Hs. rewrite readlines_from_newline_free by done. cbn [readlines_from].
  rewrite Ascii.eqb_refl. by rewrite string_app_assoc.
Qed.

Lemma readlines_from_last (s cur : string) :
  newline_free s = true → s ≠ "" →
  readlines_from cur s = [cur +:+ s].
Proof.
  intros Hs Hne. rewrite <- (string_app_empty_r s) at 1.
  rewrite readlines_from_newline_free by done. cbn [readlines_from].
  destruct (String.eqb_spec (cur +:+ s) "") as [Heq|]; [|done].
  destruct cur, s; done.
Qed.

(** C9: the lines are compared as read, terminator included.  When two files
    list the same two identifiers and only the second file ends with a
    newline, the last identifier is not aligned: it is missing from [common]
    and both of its mask entries are false. *)
Theorem raw_lines_not_aligned (other ident : string) :
  newline_free other = true → newline_free ident = true →
  ident ≠ "" → other ≠ ident →
  let nl := String newline "" in
  let v200_classes := readlines (other +:+ nl +:+ ident) in
  let v148_classes := readlines (other +:+ nl +:+ ident +:+ nl) in
  v200_classes = [other +:+ nl; ident] ∧
  v148_classes = [other +:+ nl; ident +:+ nl] ∧
  common_classes v200_classes v148_classes = [other +:+ nl] ∧
  common_classes_mask_v200 v200_classes v148_classes = [[true; false]] ∧
  common_classes_mask_v148 v200_classes v148_classes = [[true; false]].
Proof.
  intros Hother Hident Hne Hdiff nl v200_classes v148_classes.
  assert (v200_classes = [other +:+ nl; ident]) as E200.
  { unfold v200_classes, readlines, nl. rewrite string_app_cons, string_app_nil_l.
    rewrite readlines_from_line by done. by rewrite readlines_from_last. }
  assert (v148_classes = [other +:+ nl; ident +:+ nl]) as E148.
  { unfold v148_classes, readlines, nl. rewrite string_app_cons, string_app_nil_l.
    rewrite readlines_from_line by done. rewrite readlines_from_line by done.
    done. }
  assert (ident ≠ other +:+ nl) as N1.
  { intros E. rewrite E in Hident. unfold nl in Hident.
    by rewrite terminated_not_newline_free in Hident. }
  assert (ident ≠ ident +:+ nl) as N2.
  { intros E. rewrite E in Hident. unfold nl in Hident.
    by rewrite terminated_not_newline_free in Hident. }
  assert (ident +:+ nl ≠ other +:+ nl) as N3.
  { intros E. apply terminator_cancel in E. by symmetry in E. }
  assert (common_classes v200_classes v148_classes = [other +:+ nl]) as Ecommon.
  { rewrite common_classes_filter, E200, E148.
    rewrite !filter_cons, filter_nil.
    rewrite decide_True by left.
    rewrite decide_False; [done|].
    rewrite !elem_of_cons. intros [?|[?|H]]; [done|done|]. by apply elem_of_nil in H. }
  split; [done|]. split; [done|]. split; [done|]. split.
  - rewrite mask_v200_row, Ecommon, E200. cbn [map].
    rewrite bool_decide_eq_true_2 by left.
    rewrite bool_decide_eq_false_2; [done|].
    rewrite list_elem_of_singleton. done.
  - rewrite mask_v148_row, Ecommon, E148. cbn [map].
    rewrite bool_decide_eq_true_2 by left.
    rewrite bool_decide_eq_false_2; [done|].
    rewrite list_elem_of_singleton. done.
Qed.

Lemma raw_lines_not_aligned_witness :
  let nl := String newline "" in
  common_classes (readlines ("23367" +:+ nl +:+ "33259"))
                 (readlines ("23367" +:+ nl +:+ "33259" +:+ nl)) = ["23367" +:+ nl]
  ∧ common_classes_mask_v200 (readlines ("23367" +:+ nl +:+ "33259"))
                 (readlines ("23367" +:+ nl +:+ "33259" +:+ nl)) = [[true; false]]
  ∧ common_classes_mask_v148 (readlines ("23367" +:+ nl +:+ "33259"))
                 (readlines ("23367" +:+ nl +:+ "33259" +:+ nl)) = [[true; false]].
Proof.
  intros nl.
  destruct (raw_lines_not_aligned "23367" "33259") as (_ & _ & Hc & H200 & H148);
    [reflexivity | reflexivity | discriminate | discriminate |].
  split; [exact Hc|]. split; [exact H200 | exact H148].
Defined.
End aligner_facts.

(** ** Boolean masks *)

Section masking_facts.
Import Torch.
Context {V : Type}.

Lemma select_length (v : list V) (m : list bool) :
  length v = length m →
  length (select v m) = length (filter (λ b, b = true) m).
Proof.
  revert m. induction v as [|x v IH]; intros [|b m] Hlen; try done.
  injection Hlen as Hlen. cbn [select]. rewrite filter_cons.
  destruct b; [rewrite decide_True by done | rewrite decide_False by done];
    cbn [length]; by rewrite IH.
Qed.

Lemma select_length_le (v : list V) (m : list bool) : length (select v m) ≤ length v.
Proof.
  revert m. induction v as [|x v IH]; intros [|b m]; cbn [select length]; try lia.
  specialize (IH m). destruct b; cbn [length]; lia.
Qed.

Lemma select_all_true (v : list V) (m : list bool) :
  length v = length m → forallb id m = true → select v m = v.
Proof.
  revert m. induction v as [|x v IH]; intros [|b m] Hlen Hall; try done.
  injection Hlen as Hlen. cbn [forallb] in Hall.
  apply andb_true_iff in Hall as [Hb Hall]. destruct b; [|done].
  cbn [select]. f_equal. by apply IH.
Qed.

Lemma select_some_false (v : list V) (m : list bool) :
  length v = length m → forallb id m = false → length (select v m) < length m.
Proof.
  revert m. induction v as [|x v IH]; intros [|b m] Hlen Hall; try done.
  injection Hlen as Hlen. cbn [forallb] in Hall. destruct b; cbn [select length].
  - apply IH in Hall; [lia|done].
  - pose proof (select_length_le v m). lia.
Qed.

Lemma select_self_all_true (m : list bool) : forallb id (select m m) = true.
Proof. induction m as [|[] m IH]; cbn [select forallb]; done. Qed.

Lemma bool_index_row (v : list V) (m : list bool) :
  length v = length m → bool_index [v] [m] = Ok (select v m).
Proof.
  intros Hlen. unfold bool_index, row_widths. cbn [fmap list_fmap].
  rewrite decide_True by (by rewrite Hlen).
  cbn [zip_with concat]. by rewrite app_nil_r.
Qed.

Lemma bool_index_row_mismatch (v : list V) (m : list bool) :
  length v ≠ length m → bool_index [v] [m] = Raise IndexError.
Proof.
  intros Hlen. unfold bool_index, row_widths. cbn [fmap list_fmap].
  rewrite decide_False; [done|]. intros [= H]. done.
Qed.

End masking_facts.

(** C4, as stated, fails: a row filtered by a mask with a false entry is
    shorter than the mask, and indexing it with the same mask again raises. *)
Lemma masking_twice_counterexample :
  ¬ (∀ filtered : list Q,
       Torch.bool_index [[3 # 4; 1 # 4]%Q] [[true; false]] = Ok filtered →
       Torch.bool_index (Torch.unsqueeze0 filtered) [[true; false]] = Ok filtered).
Proof. intros H. specialize (H [(3 # 4)%Q] eq_refl). discriminate H. Qed.

(** C4 (amended): a row filtered by a mask is left unchanged by the mask
    filtered by itself (the all-true mask of the selected positions); the mask
    itself can be applied a second time only when all its entries are true,
    and is then a no-op, and it raises a shape mismatch otherwise. *)
Theorem masking_twice {V : Type} (v : list V) (m : list bool) :
  length v = length m →
  Torch.bool_index [v] [m] = Ok (Torch.select v m) ∧
  Torch.bool_index (Torch.unsqueeze0 (Torch.select v m)) [Torch.select m m]
    = Ok (Torch.select v m) ∧
  (forallb id m = true →
     Torch.bool_index (Torch.unsqueeze0 (Torch.select v m)) [m] = Ok (Torch.select v m)) ∧
  (forallb id m = false →
     Torch.bool_index (Torch.unsqueeze0 (Torch.select v m)) [m] = Raise IndexError).
Proof.
  intros Hlen. unfold Torch.unsqueeze0.
  assert (length (Torch.select v m) = length (Torch.select m m)) as Hsel.
  { rewrite !select_length; done. }
  split; [by apply bool_index_row|]. split; [|split].
  - rewrite bool_index_row by done. f_equal.
    apply select_all_true; [done | apply select_self_all_true].
  - intros Hall. rewrite (select_all_true v m) by done.
    rewrite bool_index_row by done. f_equal. by apply select_all_true.
  - intros Hall. apply bool_index_row_mismatch.
    pose proof (select_some_false v m Hlen Hall). lia.
Qed.

Lemma masking_twice_witness :
  Torch.bool_index (Torch.unsqueeze0 (Torch.select [3 # 4; 1 # 4]%Q [true; true])) [[true; true]]
    = Ok (Torch.select [3 # 4; 1 # 4]%Q [true; true])
  ∧ Torch.bool_index (Torch.unsqueeze0 (Torch.select [3 # 4; 1 # 4]%Q [true; false])) [[true; false]]
    = Raise IndexError.
Proof.
  split.
  - apply (masking_twice [3 # 4; 1 # 4]%Q [true; true]); reflexivity.
  - apply (masking_twice [3 # 4; 1 # 4]%Q [true; false]); reflexivity.
Defined.

(** ** Selection keeps what holds entry by entry *)

Section selection_facts.
Import Torch Runner.

Lemma select_fmap {A B} (f : A → B) (row : list A) (m : list bool) :
  select (f <$> row) m = f <$> select row m.
Proof.
  revert m. induction row as [|x row IH]; intros [|b m]; try done.
  cbn [fmap list_fmap select]. destruct b; cbn [fmap list_fmap]; by rewrite <- IH.
Qed.

Lemma selected_fmap {A B} (f : A → B) (mask : option (tensor2 bool)) (row : list A) :
  selected mask (f <$> row) = f <$> selected mask row.
Proof. destruct mask; [apply select_fmap | done]. Qed.

Lemma select_Forall {A} (P : A → Prop) (row : list A) (m : list bool) :
  Forall P row → Forall P (select row m).
Proof.
  intros Hrow. revert m. induction Hrow as [|x row Hx Hrow IH]; intros [|b m];
    cbn [select]; try constructor.
  destruct b; [constructor|]; auto.
Qed.

Lemma selected_Forall {A} (P : A → Prop) (mask : option (tensor2 bool)) (row : list A) :
  Forall P row → Forall P (selected mask row).
Proof. destruct mask; [apply select_Forall | done]. Qed.

End selection_facts.

(** ** Inference runner *)

Section runner_facts.
Import Torch Metrics Runner.
Context {Example : Type}.
Variable model : Example → result (tensor2 Q * tensor2 Z).

Lemma concat_singletons {V} (rows : list (list V)) :
  concat ((λ r, [r]) <$> rows) = rows.
Proof. induction rows as [|r rows IH]; [done|]. cbn [fmap list_fmap concat]. by rewrite IH. Qed.

(** Stacking one-row tensors of one width gives the tensor of these rows. *)
Lemma cat_rows {V} (rows : list (list V)) (n : nat) :
  rows ≠ [] → Forall (λ r, length r = n) rows →
  cat ((λ r, [r]) <$> rows) = Ok rows.
Proof.
  intros Hne Hall. destruct rows as [|r rows]; [done|].
  unfold cat, same_width. rewrite concat_singletons. cbn [fmap list_fmap].
  apply Forall_cons in Hall as [Hr Hall].
  assert (forallb (λ r0 : list V, length r0 =? length r) rows = true) as ->; [|done].
  apply forallb_forall. intros r0 Hr0. apply Nat.eqb_eq.
  rewrite Forall_forall in Hall. rewrite Hr. apply Hall. by apply list_elem_of_In.
Qed.

Lemma selected_length {V} (mask : option (tensor2 bool)) (C : nat) (row : list V) :
  (∀ m, mask = Some m → row_widths m = [C]) → length row = C →
  length (selected mask row) = num_selected mask C.
Proof.
  intros Hmask Hrow. destruct mask as [m|]; [|done].
  specialize (Hmask m eq_refl). destruct m as [|mrow [|]]; try done.
  injection Hmask as Hm. unfold selected, num_selected, Aligner.mask_sum.
  apply select_length. cbn [concat]. rewrite app_nil_r. congruence.
Qed.

Lemma same_widths {U V} (P : list (list U)) (L : list (list V)) (n : nat) :
  Forall (λ row, length row = n) P → Forall (λ row, length row = n) L →
  length P = length L → row_widths P = row_widths L.
Proof.
  unfold row_widths. revert L. induction P as [|p P IH]; intros [|l L] HP HL Hlen; try done.
  apply Forall_cons in HP as [Hp HP]. apply Forall_cons in HL as [Hl HL].
  injection Hlen as Hlen. cbn [fmap list_fmap]. rewrite Hp, Hl. f_equal. by apply IH.
Qed.

Lemma is_binary_spec (l : Z) : is_binary l = true ↔ binary l.
Proof.
  unfold is_binary, binary. rewrite orb_true_iff, !Z.eqb_eq. done.
Qed.

(** The scoring at the end raises nothing when at least two classes are
    scored, both tensors have one shape and the labels are 0/1. *)
Lemma report_scores_ok (test_preds : tensor2 Q) (test_labels : tensor2 Z) :
  2 ≤ shape1 test_preds →
  row_widths test_preds = row_widths test_labels →
  Forall (Forall binary) test_labels →
  report_scores test_preds test_labels
  = Ok {| test_preds := test_preds; test_labels := test_labels;
          f1_macro := MultilabelF1Score (shape1 test_preds) macro test_preds test_labels;
          f1_micro := MultilabelF1Score (shape1 test_preds) micro test_preds test_labels |}.
Proof.
  intros Hwidth Hshape Hbin. unfold report_scores, MultilabelF1Score_new.
  destruct (Nat.ltb_spec (shape1 test_preds) 2) as [Hlt|_]; [lia|].
  cbn [mbind result_bind]. unfold metric_call. cbn [metric_labels metric_average].
  rewrite (bool_decide_eq_true_2 _ Hshape), Nat.eqb_refl. cbn [negb].
  assert (forallb (forallb is_binary) test_labels = true) as ->; [|done].
  apply forallb_forall. intros row Hrow. apply forallb_forall. intros l Hl.
  apply is_binary_spec. rewrite Forall_forall in Hbin.
  specialize (Hbin row (proj2 (list_elem_of_In _ _) Hrow)).
  rewrite Forall_forall in Hbin. apply Hbin. by apply list_elem_of_In.
Qed.

Lemma prediction_row_eq (row : Example) (p : list Q) (l : list Z) :
  model row = Ok ([p], [l]) → prediction_row model row = p.
Proof. intros H. unfold prediction_row. by rewrite H. Qed.

Lemma label_row_eq (row : Example) (p : list Q) (l : list Z) :
  model row = Ok ([p], [l]) → label_row model row = l.
Proof. intros H. unfold label_row. by rewrite H. Qed.

Section with_data.
Variables (C : nat) (mask : option (tensor2 bool)).
Hypothesis mask_shape : ∀ m, mask = Some m → row_widths m = [C].

Lemma loop_body_accumulates (lists : list (tensor2 Q) * list (tensor2 Z))
    (row : Example) (p : list Q) (l : list Z) :
  model row = Ok ([p], [l]) → length p = C → length l = C →
  loop_body model mask lists row
  = Ok (lists.1 ++ [[selected mask p]], lists.2 ++ [[selected mask l]]).
Proof using mask_shape.
  intros Hrow Hp Hl. destruct lists as [preds_list labels_list].
  unfold loop_body. rewrite Hrow. cbn [mbind result_bind].
  destruct mask as [m|]; [|done].
  specialize (mask_shape m eq_refl). destruct m as [|mrow [|]]; try done.
  injection mask_shape as Hm.
  rewrite !bool_index_row by congruence. cbn [mbind result_bind].
  unfold selected, unsqueeze0. cbn [concat]. by rewrite app_nil_r.
Qed.

Lemma loop_accumulates (data_list : list Example)
    (preds_list : list (tensor2 Q)) (labels_list : list (tensor2 Z)) :
  (∀ e, e ∈ data_list →
     ∃ p l, model e = Ok ([p], [l]) ∧ length p = C ∧ length l = C) →
  loop model mask (preds_list, labels_list) data_list
  = Ok (preds_list ++ ((λ e, [selected mask (prediction_row model e)]) <$> data_list),
        labels_list ++ ((λ e, [selected mask (label_row model e)]) <$> data_list)).
Proof using mask_shape.
  revert preds_list labels_list.
  induction data_list as [|row rest IH]; intros preds_list labels_list Hmodel.
  - cbn [loop fmap list_fmap]. by rewrite !app_nil_r.
  - destruct (Hmodel row ltac:(left)) as (p & l & Hrow & Hp & Hl).
    cbn [loop]. rewrite (loop_body_accumulates _ row p l) by done.
    cbn [mbind result_bind fst snd].
    rewrite IH by (intros e He; apply Hmodel; by right).
    cbn [fmap list_fmap]. rewrite (prediction_row_eq row p l), (label_row_eq row p l) by done.
    by rewrite <- !app_assoc.
Qed.
End with_data.

Section accumulated.
Variables (C : nat) (mask : option (tensor2 bool)) (data_list : list Example).
Hypothesis data_nonempty : data_list ≠ [].
Hypothesis model_shape :
  ∀ e, e ∈ data_list → ∃ p l, model e = Ok ([p], [l]) ∧ length p = C ∧ length l = C.
Hypothesis mask_shape : ∀ m, mask = Some m → row_widths m = [C].

Let P : tensor2 Q := (λ e, selected mask (prediction_row model e)) <$> data_list.
Let L : tensor2 Z := (λ e, selected mask (label_row model e)) <$> data_list.

Lemma accumulated_preds_width :
  Forall (λ row, length row = num_selected mask C) P.
Proof using model_shape mask_shape.
  apply Forall_forall. intros row Hrow. apply list_elem_of_fmap in Hrow.
  destruct Hrow as (e & -> & He).
  destruct (model_shape e He) as (p & l & Hrow & Hp & Hl).
  rewrite (prediction_row_eq e p l) by done. by apply selected_length.
Qed.

Lemma accumulated_labels_width :
  Forall (λ row, length row = num_selected mask C) L.
Proof using model_shape mask_shape.
  apply Forall_forall. intros row Hrow. apply list_elem_of_fmap in Hrow.
  destruct Hrow as (e & -> & He).
  destruct (model_shape e He) as (p & l & Hrow & Hp & Hl).
  rewrite (label_row_eq e p l) by done. by apply selected_length.
Qed.

(** The loop and the two concatenations deliver the rows of the examples,
    in order, to the scoring at the end. *)
Lemma evaluate_model_accumulates :
  evaluate_model model mask data_list = report_scores P L.
Proof using data_nonempty model_shape mask_shape.
  assert (P ≠ []) as HPne by (unfold P; destruct data_list; done).
  assert (L ≠ []) as HLne by (unfold L; destruct data_list; done).
  unfold evaluate_model. rewrite (loop_accumulates C mask mask_shape) by done.
  cbn [mbind result_bind app].
  replace ((λ e, [selected mask (prediction_row model e)]) <$> data_list)
    with ((λ r : list Q, [r]) <$> P) by (unfold P; by rewrite <- list_fmap_compose).
  replace ((λ e, [selected mask (label_row model e)]) <$> data_list)
    with ((λ r : list Z, [r]) <$> L) by (unfold L; by rewrite <- list_fmap_compose).
  rewrite (cat_rows P _ HPne accumulated_preds_width). cbn [mbind result_bind].
  rewrite (cat_rows L _ HLne accumulated_labels_width). done.
Qed.

Lemma accumulated_width : shape1 P = num_selected mask C.
Proof using data_nonempty model_shape mask_shape.
  pose proof accumulated_preds_width as HP. unfold P in *.
  destruct data_list as [|row rest]; [done|].
  cbn [fmap list_fmap] in HP |- *. by apply Forall_cons in HP as [? _].
Qed.

Lemma accumulated_same_shape : row_widths P = row_widths L.
Proof using model_shape mask_shape.
  apply (same_widths P L (num_selected mask C)).
  - apply accumulated_preds_width.
  - apply accumulated_labels_width.
  - unfold P, L. by rewrite !length_fmap.
Qed.

(** With at least two selected classes and 0/1 labels at the selected
    positions the scoring goes through: the run ends normally. *)
Hypothesis two_classes : 2 ≤ num_selected mask C.
Hypothesis labels_binary :
  ∀ e, e ∈ data_list → Forall binary (selected mask (label_row model e)).

Lemma evaluate_model_ok :
  evaluate_model model mask data_list
  = Ok {| test_preds := P; test_labels := L;
          f1_macro := MultilabelF1Score (shape1 P) macro P L;
          f1_micro := MultilabelF1Score (shape1 P) micro P L |}.
Proof using data_nonempty model_shape mask_shape two_classes labels_binary.
  rewrite evaluate_model_accumulates. apply report_scores_ok.
  - by rewrite accumulated_width.
  - apply accumulated_same_shape.
  - apply Forall_forall. intros row Hrow. apply list_elem_of_fmap in Hrow.
    destruct Hrow as (e & -> & He). by apply labels_binary.
Qed.
End accumulated.

(** C3, as stated, fails on the empty example list: nothing is accumulated
    and the concatenation raises, so no tensors come out. *)
Lemma evaluate_model_rows_counterexample :
  ¬ ∃ r, evaluate_model (λ _ : nat, Ok ([[(1 # 2)%Q]], [[1%Z]])) None [] = Ok r
         ∧ shape0 (test_preds r) = length (@nil nat)
         ∧ shape0 (test_labels r) = length (@nil nat).
Proof. intros (r & H & _). discriminate H. Qed.

(** C3 (amended): on a non-empty example list for which the model yields one
    prediction row and one label row of [C] classes per example, with no mask
    or a one-row mask of [C] entries, with at least two selected classes and
    0/1 labels at the selected positions (so that the scoring at the end of
    the function raises nothing), [evaluate_model] ends normally with two
    accumulated tensors that have one row per example, row [i] being the
    (masked) vector of example [i], and as many columns as classes are
    selected: the popcount of the mask, or [C] without a mask. *)
Theorem evaluate_model_rows (C : nat) (mask : option (tensor2 bool))
    (data_list : list Example) :
  data_list ≠ [] →
  (∀ e, e ∈ data_list → ∃ p l, model e = Ok ([p], [l]) ∧ length p = C ∧ length l = C) →
  (∀ m, mask = Some m → row_widths m = [C]) →
  2 ≤ num_selected mask C →
  (∀ e, e ∈ data_list → Forall binary (selected mask (label_row model e))) →
  ∃ r, evaluate_model model mask data_list = Ok r ∧
       shape0 (test_preds r) = length data_list ∧
       shape0 (test_labels r) = length data_list ∧
       (∀ i e, data_list !! i = Some e →
          test_preds r !! i = Some (selected mask (prediction_row model e)) ∧
          test_labels r !! i = Some (selected mask (label_row model e))) ∧
       Forall (λ row, length row = num_selected mask C) (test_preds r) ∧
       Forall (λ row, length row = num_selected mask C) (test_labels r) ∧
       shape1 (test_preds r) = num_selected mask C ∧
       shape1 (test_labels r) = num_selected mask C.
Proof.
  intros Hne Hmodel Hmask Htwo Hbin.
  pose proof (accumulated_preds_width C mask data_list Hmodel Hmask) as HP.
  pose proof (accumulated_labels_width C mask data_list Hmodel Hmask) as HL.
  eexists. split; [by apply (evaluate_model_ok C)|].
  cbn [test_preds test_labels]. unfold shape0.
  split; [by rewrite length_fmap|].
  split; [by rewrite length_fmap|].
  split.
  { intros i e Hi. rewrite !list_lookup_fmap, Hi. done. }
  split; [done|]. split; [done|].
  destruct data_list as [|row rest]; [done|].
  cbn [fmap list_fmap] in HP, HL |- *.
  apply Forall_cons in HP as [? _]. apply Forall_cons in HL as [? _]. done.
Qed.

End runner_facts.

Section runner_examples.
Import Torch Metrics Runner.

Lemma toy_model3_binary (mask : option (tensor2 bool)) (e : nat) :
  e ∈ [1; 0; 1] → Forall binary (selected mask (label_row toy_model3 e)).
Proof.
  intros He. apply selected_Forall.
  assert (e = 0 ∨ e = 1) as [-> | ->].
  { apply elem_of_cons in He as [->|He]; [by right|].
    apply elem_of_cons in He as [->|He]; [by left|].
    apply list_elem_of_singleton in He as ->. by right. }
  - repeat constructor; (by left) || (by right).
  - repeat constructor; (by left) || (by right).
Qed.

Lemma evaluate_model_rows_witness :
  ∃ r, evaluate_model toy_model3 (Some [[true; false; true]]) [1; 0; 1] = Ok r ∧
       shape0 (test_preds r) = 3 ∧ shape0 (test_labels r) = 3 ∧
       shape1 (test_preds r) = 2 ∧ shape1 (test_labels r) = 2.
Proof.
  destruct (evaluate_model_rows toy_model3 3 (Some [[true; false; true]]) [1; 0; 1])
    as (r & Hr & Hp & Hl & _ & _ & _ & Hcp & Hcl).
  - discriminate.
  - intros e _. eexists _, _. split; [reflexivity|]. split; reflexivity.
  - intros m [= <-]. reflexivity.
  - vm_compute. lia.
  - apply toy_model3_binary.
  - exists r. repeat split; assumption.
Defined.

(** C10: on the empty example list nothing is accumulated and the
    concatenation raises, with or without a mask; so whenever
    [evaluate_model] ends normally the loop has processed an example. *)
Theorem evaluate_model_needs_examples {Example : Type}
    (model : Example → result (tensor2 Q * tensor2 Z))
    (mask : option (tensor2 bool)) :
  evaluate_model model mask [] = Raise RuntimeError ∧
  (∀ data_list r, evaluate_model model mask data_list = Ok r →
     data_list ≠ [] ∧ 1 ≤ length data_list).
Proof.
  split; [reflexivity|].
  intros [|row rest] r Hr; [discriminate Hr|].
  split; [discriminate | cbn [length]; lia].
Qed.

Lemma evaluate_model_needs_examples_witness :
  [1; 0; 1] ≠ @nil nat ∧ 1 ≤ length [1; 0; 1].
Proof.
  refine (proj2 (evaluate_model_needs_examples toy_model None) [1; 0; 1] _ _).
  reflexivity.
Defined.

End runner_examples.

(** ** Per-class metrics *)

Section metric_facts.
Import Torch Metrics.

Lemma Qnat_plus (a b : nat) : (Qnat (a + b) == Qnat a + Qnat b)%Q.
Proof. unfold Qnat. by rewrite Nat2Z.inj_add, inject_Z_plus. Qed.

Lemma Qnat_pos (n : nat) : 0 < n → (0 < Qnat n)%Q.
Proof.
  intros Hn. unfold Qnat. change 0%Q with (inject_Z 0). rewrite <- Zlt_Qlt. lia.
Qed.

Lemma Qnat_nonneg (n : nat) : (0 <= Qnat n)%Q.
Proof. unfold Qnat. change 0%Q with (inject_Z 0). rewrite <- Zle_Qle. lia. Qed.

Lemma precision_pos (tp fp : nat) :
  0 < tp → (precision tp fp == Qnat tp / (Qnat tp + Qnat fp))%Q ∧ (0 < precision tp fp)%Q.
Proof.
  intros Htp. unfold precision.
  destruct (Nat.eqb_spec (tp + fp) 0) as [E|_]; [lia|].
  pose proof (Qnat_pos tp Htp) as Ha. pose proof (Qnat_nonneg fp) as Hb.
  rewrite Qnat_plus. split; [reflexivity|].
  apply Qlt_shift_div_l; lra.
Qed.

Lemma recall_pos (tp fn : nat) :
  0 < tp → (recall tp fn == Qnat tp / (Qnat tp + Qnat fn))%Q ∧ (0 < recall tp fn)%Q.
Proof.
  intros Htp. unfold recall.
  destruct (Nat.eqb_spec (tp + fn) 0) as [E|_]; [lia|].
  pose proof (Qnat_pos tp Htp) as Ha. pose proof (Qnat_nonneg fn) as Hb.
  rewrite Qnat_plus. split; [reflexivity|].
  apply Qlt_shift_div_l; lra.
Qed.

Lemma harmonic_mean_pos (p r : Q) :
  (0 < p)%Q → (0 < r)%Q → harmonic_mean p r = (2 * p * r / (p + r))%Q.
Proof.
  intros Hp Hr. unfold harmonic_mean.
  destruct (Qeq_bool p 0) eqn:E; [|done].
  apply Qeq_bool_iff in E. rewrite E in Hp. by apply Qlt_irrefl in Hp.
Qed.

#[local] Instance harmonic_mean_proper : Proper (Qeq ==> Qeq ==> Qeq) harmonic_mean.
Proof.
  intros p p' Hp r r' Hr. unfold harmonic_mean.
  assert (Qeq_bool p 0 = Qeq_bool p' 0) as ->.
  { destruct (Qeq_bool p' 0) eqn:E.
    - apply Qeq_bool_iff. apply Qeq_bool_iff in E. by rewrite Hp.
    - destruct (Qeq_bool p 0) eqn:E'; [|done].
      apply Qeq_bool_iff in E'. apply Qeq_bool_neq in E. rewrite Hp in E'. done. }
  assert (Qeq_bool r 0 = Qeq_bool r' 0) as ->.
  { destruct (Qeq_bool r' 0) eqn:E.
    - apply Qeq_bool_iff. apply Qeq_bool_iff in E. by rewrite Hr.
    - destruct (Qeq_bool r 0) eqn:E'; [|done].
      apply Qeq_bool_iff in E'. apply Qeq_bool_neq in E. rewrite Hr in E'. done. }
  destruct (Qeq_bool p' 0 && Qeq_bool r' 0); [reflexivity|].
  by rewrite Hp, Hr.
Qed.

(** With a true positive, F1 is 2TP/(2TP+FP+FN) and positive. *)
Lemma f1_score_closed (tp fp fn : nat) :
  0 < tp →
  (f1_score tp fp fn == 2 * Qnat tp / (2 * Qnat tp + Qnat fp + Qnat fn))%Q.
Proof.
  intros Htp. unfold f1_score.
  destruct (precision_pos tp fp Htp) as [Ep Hp].
  destruct (recall_pos tp fn Htp) as [Er Hr].
  rewrite harmonic_mean_pos by done. rewrite Ep, Er.
  pose proof (Qnat_pos tp Htp) as Ha. pose proof (Qnat_nonneg fp) as Hb.
  pose proof (Qnat_nonneg fn) as Hc.
  clear Ep Er Hp Hr. field. repeat split; [lra | lra | lra | nra].
Qed.

Lemma f1_score_no_tp (fp fn : nat) : f1_score 0 fp fn = 0%Q.
Proof.
  unfold f1_score, harmonic_mean.
  assert (Qeq_bool (precision 0 fp) 0 = true) as ->.
  { apply Qeq_bool_iff. unfold precision. destruct (0 + fp =? 0); [reflexivity|].
    unfold Qnat. cbn [Z.of_nat]. unfold Qdiv. change (inject_Z 0) with 0%Q. ring. }
  assert (Qeq_bool (recall 0 fn) 0 = true) as ->; [|done].
  apply Qeq_bool_iff. unfold recall. destruct (0 + fn =? 0); [reflexivity|].
  unfold Qnat. cbn [Z.of_nat]. unfold Qdiv. change (inject_Z 0) with 0%Q. ring.
Qed.

Lemma f1_score_zero_iff (tp fp fn : nat) : (f1_score tp fp fn == 0)%Q ↔ tp = 0.
Proof.
  split.
  - intros H. destruct tp as [|tp]; [done|]. exfalso.
    rewrite f1_score_closed in H by lia.
    pose proof (Qnat_pos (S tp) ltac:(lia)) as Ha. pose proof (Qnat_nonneg fp) as Hb.
    pose proof (Qnat_nonneg fn) as Hc.
    assert (0 < 2 * Qnat (S tp) / (2 * Qnat (S tp) + Qnat fp + Qnat fn))%Q as Hpos
      by (apply Qlt_shift_div_l; lra).
    rewrite H in Hpos. by apply Qlt_irrefl in Hpos.
  - intros ->. by rewrite f1_score_no_tp.
Qed.

Lemma f1_score_perfect (tp : nat) : 0 < tp → (f1_score tp 0 0 == 1)%Q.
Proof.
  intros Htp. rewrite f1_score_closed by done.
  pose proof (Qnat_pos tp Htp) as Ha.
  change (Qnat 0) with 0%Q. field. lra.
Qed.


Lemma precision_zero_iff (tp fp : nat) : (precision tp fp == 0)%Q ↔ tp = 0.
Proof.
  split.
  - intros H. destruct tp as [|tp]; [done|].
    destruct (precision_pos (S tp) fp ltac:(lia)) as [_ Hpos].
    rewrite H in Hpos. by apply Qlt_irrefl in Hpos.
  - intros ->. unfold precision. destruct (0 + fp =? 0); [reflexivity|].
    unfold Qnat. cbn [Z.of_nat]. unfold Qdiv. change (inject_Z 0) with 0%Q. ring.
Qed.

Lemma recall_zero_iff (tp fn : nat) : (recall tp fn == 0)%Q ↔ tp = 0.
Proof.
  split.
  - intros H. destruct tp as [|tp]; [done|].
    destruct (recall_pos (S tp) fn ltac:(lia)) as [_ Hpos].
    rewrite H in Hpos. by apply Qlt_irrefl in Hpos.
  - intros ->. unfold recall. destruct (0 + fn =? 0); [reflexivity|].
    unfold Qnat. cbn [Z.of_nat]. unfold Qdiv. change (inject_Z 0) with 0%Q. ring.
Qed.

(** C5: precision is TP/(TP+FP), and 0 without predicted positives; recall is
    TP/(TP+FN), and 0 without actual positives; F1 is 0 when both are 0 (they
    vanish together) and their harmonic mean otherwise.  A class with 2 true
    positives, 1 false positive and no false negative has precision 2/3,
    recall 1 and F1 4/5, also when the counts are taken from a column of
    three predictions. *)
Theorem per_class_metrics (tp fp fn : nat) :
  (tp + fp = 0 → precision tp fp = 0%Q) ∧
  (0 < tp + fp → precision tp fp = (Qnat tp / Qnat (tp + fp))%Q) ∧
  (tp + fn = 0 → recall tp fn = 0%Q) ∧
  (0 < tp + fn → recall tp fn = (Qnat tp / Qnat (tp + fn))%Q) ∧
  ((precision tp fp == 0)%Q ↔ (recall tp fn == 0)%Q) ∧
  ((precision tp fp == 0)%Q → (recall tp fn == 0)%Q → f1_score tp fp fn = 0%Q) ∧
  (¬ (precision tp fp == 0)%Q →
     (f1_score tp fp fn == 2 / (/ precision tp fp + / recall tp fn))%Q) ∧
  ((precision 2 1 == 2 # 3)%Q ∧ (recall 2 0 == 1)%Q ∧ (f1_score 2 1 0 == 4 # 5)%Q) ∧
  (let preds := [[9 # 10]; [8 # 10]; [7 # 10]]%Q in
   let labels := [[1]; [1]; [0]]%Z in
   TP 0 preds labels = 2 ∧ FP 0 preds labels = 1 ∧ FN 0 preds labels = 0 ∧
   (MultilabelF1Score 1 macro preds labels == 4 # 5)%Q ∧
   (MultilabelF1Score 1 micro preds labels == 4 # 5)%Q).
Proof.
  split; [intros H; unfold precision; by rewrite H|].
  split; [intros H; unfold precision; by destruct (Nat.eqb_spec (tp + fp) 0); [lia|]|].
  split; [intros H; unfold recall; by rewrite H|].
  split; [intros H; unfold recall; by destruct (Nat.eqb_spec (tp + fn) 0); [lia|]|].
  split; [by rewrite precision_zero_iff, recall_zero_iff|].
  split.
  { intros Hp _. apply precision_zero_iff in Hp as ->. apply f1_score_no_tp. }
  split.
  { intros Hp. assert (0 < tp) as Htp.
    { destruct tp; [|lia]. exfalso. apply Hp. by apply precision_zero_iff. }
    destruct (precision_pos tp fp Htp) as [_ Hpp].
    destruct (recall_pos tp fn Htp) as [_ Hrp].
    unfold f1_score. rewrite harmonic_mean_pos by done.
    generalize dependent (precision tp fp). generalize dependent (recall tp fn).
    intros r Hr p _ Hp. field. repeat split; lra. }
  split; [repeat split; reflexivity|].
  cbv zeta. repeat split; reflexivity.
Qed.

Lemma per_class_metrics_witness :
  precision 2 1 = (Qnat 2 / Qnat (2 + 1))%Q ∧
  recall 2 0 = (Qnat 2 / Qnat (2 + 0))%Q ∧
  precision 0 0 = 0%Q ∧ recall 0 0 = 0%Q ∧ f1_score 0 3 1 = 0%Q ∧
  (f1_score 2 1 0 == 2 / (/ precision 2 1 + / recall 2 0))%Q.
Proof.
  destruct (per_class_metrics 2 1 0) as (_ & Hp & _ & Hr & _ & _ & Hf & _).
  destruct (per_class_metrics 0 0 0) as (Hp0 & _ & Hr0 & _).
  destruct (per_class_metrics 0 3 1) as (_ & _ & _ & _ & _ & Hf0 & _).
  split; [apply Hp; lia|].
  split; [apply Hr; lia|].
  split; [apply Hp0; lia|].
  split; [apply Hr0; lia|].
  split; [apply Hf0; reflexivity|].
  apply Hf. discriminate.
Defined.


(** ** Perfect predictions *)

Lemma binary_agree (l : Z) :
  binary l → predicted_positive (inject_Z l) = actual_positive l.
Proof. by intros [-> | ->]. Qed.

Lemma column_as_predictions (c : nat) (labels : tensor2 Z) :
  column c (as_predictions labels) = inject_Z <$> column c labels.
Proof.
  unfold column, as_predictions.
  induction labels as [|row labels IH]; [done|].
  cbn [fmap list_fmap omap list_omap]. rewrite list_lookup_fmap.
  destruct (row !! c); cbn [fmap option_fmap option_map list_fmap]; by rewrite IH.
Qed.

Lemma column_binary (c : nat) (labels : tensor2 Z) :
  Forall (Forall binary) labels → Forall binary (column c labels).
Proof.
  intros Hall. apply Forall_forall. intros l Hl.
  apply list_elem_of_omap in Hl as (row & Hrow & Hc).
  rewrite Forall_forall in Hall. specialize (Hall row Hrow).
  rewrite Forall_forall in Hall. apply Hall. by eapply list_elem_of_lookup_2.
Qed.

(** On labels used as predictions the confusion counts only depend on the
    label column. *)
Lemma count_rows_perfect (test : bool → bool → bool) (c : nat) (labels : tensor2 Z) :
  Forall (Forall binary) labels →
  count_rows test c (as_predictions labels) labels
  = length (filter (λ l, test (actual_positive l) (actual_positive l) = true)
              (column c labels)).
Proof.
  intros Hall. unfold count_rows. rewrite column_as_predictions.
  pose proof (column_binary c labels Hall) as Hcol.
  induction Hcol as [|l col Hl Hcol IH]; [done|].
  cbn [fmap list_fmap zip zip_with]. rewrite !filter_cons. cbn [fst snd].
  rewrite (binary_agree l Hl).
  destruct (decide (test (actual_positive l) (actual_positive l) = true));
    cbn [length]; by rewrite IH.
Qed.

Lemma filter_none {A} (P : A → Prop) `{!∀ x, Decision (P x)} (l : list A) :
  (∀ x, ¬ P x) → filter P l = [].
Proof.
  intros HP. induction l as [|x l IH]; [done|].
  rewrite filter_cons, decide_False by apply HP. done.
Qed.

Lemma FP_perfect (c : nat) (labels : tensor2 Z) :
  Forall (Forall binary) labels → FP c (as_predictions labels) labels = 0.
Proof.
  intros Hall. unfold FP. rewrite count_rows_perfect by done.
  rewrite filter_none; [done|]. intros l. by destruct (actual_positive l).
Qed.

Lemma FN_perfect (c : nat) (labels : tensor2 Z) :
  Forall (Forall binary) labels → FN c (as_predictions labels) labels = 0.
Proof.
  intros Hall. unfold FN. rewrite count_rows_perfect by done.
  rewrite filter_none; [done|]. intros l. by destruct (actual_positive l).
Qed.

Lemma TP_perfect (c : nat) (labels : tensor2 Z) :
  Forall (Forall binary) labels →
  (∃ row, row ∈ labels ∧ row !! c = Some 1%Z) →
  0 < TP c (as_predictions labels) labels.
Proof.
  intros Hall (row & Hrow & Hc). unfold TP. rewrite count_rows_perfect by done.
  assert (1%Z ∈ filter (λ l, actual_positive l && actual_positive l = true)
            (column c labels)) as Hin.
  { apply list_elem_of_filter. split; [done|].
    apply list_elem_of_omap. by exists row. }
  destruct (filter _ (column c labels)); [by apply elem_of_nil in Hin | cbn [length]; lia].
Qed.

Lemma Qsum_ones {A} (f : A → Q) (l : list A) :
  (∀ x, x ∈ l → (f x == 1)%Q) → (Qsum (map f l) == Qnat (length l))%Q.
Proof.
  induction l as [|x l IH]; intros Hf; [reflexivity|].
  cbn [map length]. unfold Qsum. cbn [foldr]. fold (Qsum (map f l)).
  rewrite IH by (intros y Hy; apply Hf; by right).
  rewrite (Hf x) by left. change (S (length l)) with (1 + length l).
  rewrite Qnat_plus. reflexivity.
Qed.

Lemma nat_sum_zero {A} (f : A → nat) (l : list A) :
  (∀ x, x ∈ l → f x = 0) → nat_sum (map f l) = 0.
Proof.
  induction l as [|x l IH]; intros Hf; [done|].
  cbn [map]. unfold nat_sum. cbn [foldr]. fold (nat_sum (map f l)).
  rewrite IH by (intros y Hy; apply Hf; by right). rewrite (Hf x) by left. done.
Qed.

Lemma nat_sum_pos {A} (f : A → nat) (l : list A) (x : A) :
  x ∈ l → 0 < f x → 0 < nat_sum (map f l).
Proof.
  intros Hx Hfx. induction l as [|y l IH]; [by apply elem_of_nil in Hx|].
  cbn [map]. unfold nat_sum. cbn [foldr]. fold (nat_sum (map f l)).
  apply elem_of_cons in Hx as [->|Hx]; [lia|]. specialize (IH Hx). lia.
Qed.

(** Scores of labels fed as predictions, over the first [n] classes. *)
Lemma perfect_scores (n : nat) (labels : tensor2 Z) :
  0 < n →
  Forall (Forall binary) labels →
  (∀ c, c < n → ∃ row, row ∈ labels ∧ row !! c = Some 1%Z) →
  (MultilabelF1Score n macro (as_predictions labels) labels == 1)%Q ∧
  (MultilabelF1Score n micro (as_predictions labels) labels == 1)%Q.
Proof.
  intros Hn Hbin Hpos. split.
  - unfold MultilabelF1Score, classwise_f1.
    rewrite Qsum_ones.
    + rewrite length_seq. pose proof (Qnat_pos _ Hn). field. lra.
    + intros c Hc. apply elem_of_seq in Hc.
      rewrite FP_perfect, FN_perfect by done.
      apply f1_score_perfect. apply TP_perfect; [done|]. apply Hpos. lia.
  - unfold MultilabelF1Score.
    rewrite (nat_sum_zero (λ c, FP c _ _)) by (intros; by apply FP_perfect).
    rewrite (nat_sum_zero (λ c, FN c _ _)) by (intros; by apply FN_perfect).
    apply f1_score_perfect. apply (nat_sum_pos _ _ 0).
    + apply elem_of_seq. lia.
    + apply TP_perfect; [done|]. by apply Hpos.
Qed.

Lemma shape1_as_predictions (labels : tensor2 Z) :
  shape1 (as_predictions labels) = shape1 labels.
Proof.
  unfold as_predictions. destruct labels as [|row labels]; [done|].
  cbn [fmap list_fmap shape1]. apply length_fmap.
Qed.



End metric_facts.

(** ** Zero-F1 list of the metrics reporter *)

Section reporter_facts.
Import Torch Metrics Reporter.

Lemma has_positive_label_spec (c : nat) (labels : tensor2 Z) :
  has_positive_label c labels = true ↔ ∃ row, row ∈ labels ∧ row !! c = Some 1%Z.
Proof.
  unfold has_positive_label. rewrite existsb_exists. split.
  - intros (l & Hl & Hpos). apply Z.eqb_eq in Hpos as ->.
    apply list_elem_of_In, list_elem_of_omap in Hl. done.
  - intros (row & Hrow & Hc). exists 1%Z. split; [|done].
    apply list_elem_of_In, list_elem_of_omap. by exists row.
Qed.

Lemma elem_of_zero_f1_classes (c : nat) (preds : tensor2 Q) (labels : tensor2 Z) :
  c ∈ zero_f1_classes preds labels ↔
  c < shape1 preds ∧ (class_f1 c preds labels == 0)%Q ∧ has_positive_label c labels = true.
Proof.
  unfold zero_f1_classes. rewrite list_elem_of_filter, elem_of_seq.
  rewrite andb_true_iff, Qeq_bool_iff. split; [intros [[? ?] ?] | intros (? & ? & ?)];
    repeat split; (done || lia).
Qed.

Lemma filter_none_in {A} (P : A → Prop) `{!∀ x, Decision (P x)} (l : list A) :
  (∀ x, x ∈ l → ¬ P x) → filter P l = [].
Proof.
  induction l as [|x l IH]; intros HP; [done|].
  rewrite filter_cons, decide_False by (apply HP; left).
  apply IH. intros y Hy. apply HP. by right.
Qed.

Lemma TP_without_actual_positive (c : nat) (preds : tensor2 Q) (labels : tensor2 Z) :
  Forall (λ l, l ≠ 1%Z) (column c labels) → TP c preds labels = 0.
Proof.
  intros Hlabels. unfold TP, count_rows. rewrite filter_none_in; [done|].
  intros [p l] Hin Hpl. cbn [fst snd] in Hpl.
  apply andb_true_iff in Hpl as [_ Hl]. apply Z.eqb_eq in Hl as ->.
  apply elem_of_zip_r in Hin. rewrite Forall_forall in Hlabels.
  by apply (Hlabels 1%Z).
Qed.

(** C7: every class on the zero-F1 list has a positive ground-truth label
    (and no true positive); a class without actual positives, hence one with
    neither actual nor predicted positives, is not on the list although its
    F1 is 0.  The report names the listed classes in column order. *)
Theorem zero_f1_list_excludes_absent (preds : tensor2 Q) (labels : tensor2 Z) :
  (∀ c, c ∈ zero_f1_classes preds labels →
     c < shape1 preds ∧ TP c preds labels = 0 ∧
     ∃ row, row ∈ labels ∧ row !! c = Some 1%Z) ∧
  (∀ c, c < shape1 preds → TP c preds labels = 0 →
     (∃ row, row ∈ labels ∧ row !! c = Some 1%Z) →
     c ∈ zero_f1_classes preds labels) ∧
  (∀ c, Forall (λ l, l ≠ 1%Z) (column c labels) →
     Forall (λ p, predicted_positive p = false) (column c preds) →
     (class_f1 c preds labels == 0)%Q ∧ c ∉ zero_f1_classes preds labels) ∧
  (∀ classes,
     zero_f1_report classes preds labels
     = map (class_name classes) (zero_f1_classes preds labels)).
Proof.
  split; [|split; [|split]].
  - intros c Hc. apply elem_of_zero_f1_classes in Hc as (Hlt & Hf1 & Hpos).
    split; [done|]. split; [by apply f1_score_zero_iff in Hf1|].
    by apply has_positive_label_spec.
  - intros c Hlt Htp Hpos. apply elem_of_zero_f1_classes.
    split; [done|]. split; [by apply f1_score_zero_iff|].
    by apply has_positive_label_spec.
  - intros c Hlabels _. split.
    + apply f1_score_zero_iff. by apply TP_without_actual_positive.
    + intros Hc. apply elem_of_zero_f1_classes in Hc as (_ & _ & Hpos).
      apply has_positive_label_spec in Hpos as (row & Hrow & Hc).
      rewrite Forall_forall in Hlabels. apply (Hlabels 1%Z); [|done].
      apply list_elem_of_omap. by exists row.
  - done.
Qed.

(** A class never predicted and never labelled stays off the list; a class
    labelled once and never predicted is on it. *)
Lemma zero_f1_list_excludes_absent_witness :
  (let preds := [[9 # 10; 1 # 10; 2 # 10]; [8 # 10; 3 # 10; 1 # 10]]%Q in
   let labels := [[1; 0; 1]; [1; 0; 0]]%Z in
   (2 < shape1 preds ∧ TP 2 preds labels = 0 ∧
    ∃ row, row ∈ labels ∧ row !! 2 = Some 1%Z) ∧
   ((class_f1 1 preds labels == 0)%Q ∧ 1 ∉ zero_f1_classes preds labels)).
Proof.
  cbv zeta.
  destruct (zero_f1_list_excludes_absent
              [[9 # 10; 1 # 10; 2 # 10]; [8 # 10; 3 # 10; 1 # 10]]%Q
              [[1; 0; 1]; [1; 0; 0]]%Z) as (Hin & _ & Hout & _).
  split.
  - apply Hin. vm_compute. left.
  - apply Hout; repeat constructor; discriminate.
Defined.
End reporter_facts.

(** ** A model that predicts the labels *)

Section perfect_model.
Import Torch Metrics Runner.
Context {Example : Type}.
Variable model : Example → result (tensor2 Q * tensor2 Z).

(** End to end: when the model returns each example's 0/1 labels as its
    predictions, at least two classes are selected and every selected class
    has a positive label among the examples, the run reports macro-F1 and
    micro-F1 equal to 1. *)
Lemma evaluate_model_perfect (C : nat) (mask : option (tensor2 bool))
    (data_list : list Example) :
  data_list ≠ [] →
  (∀ e, e ∈ data_list →
     ∃ l, model e = Ok ([inject_Z <$> l], [l]) ∧ length l = C ∧ Forall binary l) →
  (∀ m, mask = Some m → row_widths m = [C]) →
  2 ≤ num_selected mask C →
  (∀ c, c < num_selected mask C →
     ∃ e, e ∈ data_list ∧ selected mask (label_row model e) !! c = Some 1%Z) →
  ∃ r, evaluate_model model mask data_list = Ok r ∧
       test_preds r = as_predictions (test_labels r) ∧
       (f1_macro r == 1)%Q ∧ (f1_micro r == 1)%Q.
Proof.
  intros Hne Hperfect Hmask Hsel Hpos.
  assert (∀ e, e ∈ data_list →
            ∃ p l, model e = Ok ([p], [l]) ∧ length p = C ∧ length l = C) as Hshape.
  { intros e He. destruct (Hperfect e He) as (l & Hrow & Hl & _).
    exists (inject_Z <$> l), l. by rewrite length_fmap. }
  set (L := (λ e, selected mask (label_row model e)) <$> data_list).
  assert ((λ e, selected mask (prediction_row model e)) <$> data_list = as_predictions L)
    as HP.
  { unfold L, as_predictions. rewrite <- list_fmap_compose.
    apply list_fmap_ext. intros i e Hi. cbn [compose].
    destruct (Hperfect e (list_elem_of_lookup_2 _ _ _ Hi)) as (l & Hrow & _).
    rewrite (prediction_row_eq model e _ l), (label_row_eq model e _ l) by done.
    apply selected_fmap. }
  assert (shape1 L = num_selected mask C) as HL.
  { pose proof (accumulated_labels_width model C mask data_list Hshape Hmask) as Hw.
    fold L in Hw. unfold L in *. destruct data_list as [|row rest]; [done|].
    cbn [fmap list_fmap] in Hw |- *. by apply Forall_cons in Hw as [? _]. }
  assert (shape1 (as_predictions L) = num_selected mask C) as HPL
    by (by rewrite shape1_as_predictions).
  assert (∀ e, e ∈ data_list → Forall binary (selected mask (label_row model e)))
    as Hbinary.
  { intros e He. destruct (Hperfect e He) as (l & Hrow & _ & Hbin).
    rewrite (label_row_eq model e _ l) by done. by apply selected_Forall. }
  destruct (perfect_scores (num_selected mask C) L) as [Hmacro Hmicro].
  - lia.
  - apply Forall_forall. intros row Hrow. apply list_elem_of_fmap in Hrow as (e & -> & He).
    by apply Hbinary.
  - intros c Hc. destruct (Hpos c Hc) as (e & He & Hone).
    exists (selected mask (label_row model e)). split; [|done].
    apply list_elem_of_fmap. by exists e.
  - eexists. split; [by apply (evaluate_model_ok model C)|].
    cbn [test_preds test_labels f1_macro f1_micro]. fold L. rewrite HP, HPL.
    split; [done|]. split; [exact Hmacro | exact Hmicro].
Qed.

End perfect_model.

(** ** Constants check of the workflow *)

Section verify_constants_facts.
Import VerifyConstants.

Lemma grep_q_changed (changed_files : list string) :
  file_name ∈ changed_files → grep_q file_name changed_files = true.
Proof.
  intros Hin. unfold grep_q. apply existsb_exists. exists file_name.
  split; [by apply list_elem_of_In | reflexivity].
Qed.

(** Once the file is known to have changed, the step is decided by the first
    constant that differs. *)
Lemma verify_constants_first_mismatch (changed_files : list string)
    (env : gmap string string) :
  grep_q file_name changed_files = true →
  verify_constants changed_files env
  = match first_mismatch env with
    | Some c =>
        {| stdout := preamble env
                     ++ [mismatch_message (name c) (exported env c) (expected c)];
           exit_status := 1 |}
    | None => {| stdout := preamble env; exit_status := 0 |}
    end.
Proof.
  intros Hgrep. unfold verify_constants. rewrite Hgrep.
  unfold first_mismatch, constants, check. cbn [find].
  change (exported env EMBEDDING_OFFSET) with (getenv env "E_EMBEDDING_OFFSET").
  change (exported env CLS_TOKEN) with (getenv env "E_CLS_TOKEN").
  change (exported env PADDING_TOKEN_INDEX) with (getenv env "E_PADDING_TOKEN_INDEX").
  change (exported env MASK_TOKEN_INDEX) with (getenv env "E_MASK_TOKEN_INDEX").
  cbn [expected name]. unfold exp_embedding_offset, exp_cls_token,
    exp_padding_token_index, exp_mask_token_index.
  destruct (String.eqb (getenv env "E_EMBEDDING_OFFSET") "10"); [|done].
  destruct (String.eqb (getenv env "E_CLS_TOKEN") "2"); [|done].
  destruct (String.eqb (getenv env "E_PADDING_TOKEN_INDEX") "0"); [|done].
  destruct (String.eqb (getenv env "E_MASK_TOKEN_INDEX") "1"); done.
Qed.

Lemma first_mismatch_none (env : gmap string string) :
  first_mismatch env = None ↔ ∀ c, exported env c = expected c.
Proof.
  unfold first_mismatch. split.
  - intros Hnone c. pose proof (find_none _ _ Hnone c) as Hc.
    apply negb_false_iff, String.eqb_eq in Hc; [done|].
    unfold constants. destruct c; cbn [In]; tauto.
  - intros Hall. destruct (find _ constants) as [c|] eqn:E; [|done].
    apply find_some in E as [_ Hc]. rewrite Hall, String.eqb_refl in Hc. done.
Qed.

Lemma first_mismatch_some (env : gmap string string) (c : constant) :
  first_mismatch env = Some c → exported env c ≠ expected c.
Proof.
  unfold first_mismatch. intros E. apply find_some in E as [_ Hc].
  apply negb_true_iff, String.eqb_neq in Hc. done.
Qed.

Lemma first_mismatch_at (env : gmap string string) (c : constant) :
  exported env c ≠ expected c →
  (∀ c', position c' < position c → exported env c' = expected c') →
  first_mismatch env = Some c.
Proof.
  intros Hc Hbefore. apply String.eqb_neq in Hc.
  unfold first_mismatch, constants. cbn [find].
  destruct c; cbn [position] in Hbefore.
  - by rewrite Hc.
  - rewrite (Hbefore EMBEDDING_OFFSET) by (cbn [position]; lia).
    rewrite String.eqb_refl. cbn [negb]. by rewrite Hc.
  - rewrite (Hbefore EMBEDDING_OFFSET), (Hbefore CLS_TOKEN) by (cbn [position]; lia).
    rewrite !String.eqb_refl. cbn [negb]. by rewrite Hc.
  - rewrite (Hbefore EMBEDDING_OFFSET), (Hbefore CLS_TOKEN),
      (Hbefore PADDING_TOKEN_INDEX) by (cbn [position]; lia).
    rewrite !String.eqb_refl. cbn [negb]. by rewrite Hc.
Qed.

(** C8, as stated, fails when two constants differ: the step exits at the
    first difference, so the second differing constant gets no diagnostic. *)
Lemma verify_constants_checked_counterexample :
  let env : gmap string string :=
    <["E_EMBEDDING_OFFSET" := "11"]> (<["E_CLS_TOKEN" := "3"]>
      (<["E_PADDING_TOKEN_INDEX" := "0"]> (<["E_MASK_TOKEN_INDEX" := "1"]> ∅))) in
  let run := verify_constants ["chebai/preprocessing/reader.py"] env in
  ¬ (∀ c, default "" (env !! ("E_" +:+ name c)) ≠ expected c →
       exit_status run ≠ 0 ∧
       name c +:+ " (" +:+ default "" (env !! ("E_" +:+ name c))
         +:+ ") does not match expected value (" +:+ expected c +:+ ")!"
       ∈ stdout run).
Proof.
  intros env run H. destruct (H CLS_TOKEN) as [_ Hin].
  - vm_compute. discriminate.
  - apply list_elem_of_In in Hin. vm_compute in Hin.
    repeat (destruct Hin as [Hin|Hin]; [discriminate Hin|]). exact Hin.
Qed.

(** C8 (amended): when the reader module is among the changed files, the
    four constants are compared with 10, 2, 0 and 1 in the order of the
    script.  If an exported value (the empty string when the variable is
    unset) differs, the step exits with status 1 and the last line it prints
    is the diagnostic of the first differing constant, naming that constant
    with its actual and its expected value; constants after it are not
    reported.  If all four agree it exits with status 0 and prints only the
    four lines of the preamble. *)
Theorem verify_constants_checked (changed_files : list string)
    (env : gmap string string) :
  file_name ∈ changed_files →
  let actual := λ c, default "" (env !! ("E_" +:+ name c)) in
  let diagnostic := λ c,
    name c +:+ " (" +:+ actual c +:+ ") does not match expected value ("
      +:+ expected c +:+ ")!" in
  let run := verify_constants changed_files env in
  (expected EMBEDDING_OFFSET = "10" ∧ expected CLS_TOKEN = "2" ∧
   expected PADDING_TOKEN_INDEX = "0" ∧ expected MASK_TOKEN_INDEX = "1") ∧
  (∀ c, actual c ≠ expected c →
     (∀ c', position c' < position c → actual c' = expected c') →
     exit_status run = 1 ∧ last (stdout run) = Some (diagnostic c)) ∧
  (∀ c, actual c ≠ expected c →
     exit_status run = 1 ∧
     ∃ c', position c' ≤ position c ∧ actual c' ≠ expected c' ∧
           last (stdout run) = Some (diagnostic c')) ∧
  ((∀ c, actual c = expected c) →
     exit_status run = 0 ∧
     stdout run
     = [ "----------------------- Checking file : chebai/preprocessing/reader.py ----------------------- ";
         "Current Environment Variables:";
         "E_EMBEDDING_OFFSET = 10";
         "Expected: 10" ]).
Proof.
  intros Hin actual diagnostic run.
  assert (∀ c, actual c ≠ expected c →
            (∀ c', position c' < position c → actual c' = expected c') →
            exit_status run = 1 ∧ last (stdout run) = Some (diagnostic c)) as Hfirst.
  { intros c Hc Hbefore. unfold run.
    rewrite (verify_constants_first_mismatch _ _ (grep_q_changed _ Hin)).
    rewrite (first_mismatch_at env c Hc Hbefore). cbn [exit_status stdout].
    split; [done|]. apply last_snoc. }
  split; [done|]. split; [exact Hfirst|]. split.
  - intros c Hc.
    destruct (decide (actual EMBEDDING_OFFSET = expected EMBEDDING_OFFSET)) as [E1|N1].
    2:{ destruct (Hfirst EMBEDDING_OFFSET N1) as [Hs Hl];
          [intros c' Hlt; cbn [position] in Hlt; lia|].
        split; [done|]. exists EMBEDDING_OFFSET. cbn [position]. split; [lia|done]. }
    destruct (decide (actual CLS_TOKEN = expected CLS_TOKEN)) as [E2|N2].
    2:{ destruct (Hfirst CLS_TOKEN N2) as [Hs Hl];
          [intros [] Hlt; cbn [position] in Hlt; (done || lia)|].
        split; [done|]. exists CLS_TOKEN. split; [|done].
        destruct c; cbn [position]; (done || lia). }
    destruct (decide (actual PADDING_TOKEN_INDEX = expected PADDING_TOKEN_INDEX))
      as [E3|N3].
    2:{ destruct (Hfirst PADDING_TOKEN_INDEX N3) as [Hs Hl];
          [intros [] Hlt; cbn [position] in Hlt; (done || lia)|].
        split; [done|]. exists PADDING_TOKEN_INDEX. split; [|done].
        destruct c; cbn [position]; (done || lia). }
    destruct (Hfirst MASK_TOKEN_INDEX) as [Hs Hl].
    + by destruct c.
    + intros [] Hlt; cbn [position] in Hlt; (done || lia).
    + split; [done|]. exists MASK_TOKEN_INDEX. split; [|by destruct c].
      destruct c; cbn [position]; (done || lia).
  - intros Hall. unfold run.
    rewrite (verify_constants_first_mismatch _ _ (grep_q_changed _ Hin)).
    rewrite (proj2 (first_mismatch_none env) Hall). cbn [exit_status stdout].
    split; [done|]. unfold preamble, getenv.
    pose proof (Hall EMBEDDING_OFFSET) as H1.
    change (default "" (env !! "E_EMBEDDING_OFFSET") = "10") in H1. by rewrite H1.
Qed.

Lemma verify_constants_checked_witness :
  (let env : gmap string string :=
     <["E_EMBEDDING_OFFSET" := "10"]> (<["E_CLS_TOKEN" := "3"]>
       (<["E_PADDING_TOKEN_INDEX" := "0"]> (<["E_MASK_TOKEN_INDEX" := "7"]> ∅))) in
   let run := verify_constants ["README.md"; "chebai/preprocessing/reader.py"] env in
   exit_status run = 1 ∧
   last (stdout run) = Some "CLS_TOKEN (3) does not match expected value (2)!") ∧
  (let env : gmap string string :=
     <["E_EMBEDDING_OFFSET" := "10"]> (<["E_CLS_TOKEN" := "2"]>
       (<["E_PADDING_TOKEN_INDEX" := "0"]> (<["E_MASK_TOKEN_INDEX" := "1"]> ∅))) in
   let run := verify_constants ["README.md"; "chebai/preprocessing/reader.py"] env in
   exit_status run = 0 ∧
   stdout run
   = [ "----------------------- Checking file : chebai/preprocessing/reader.py ----------------------- ";
       "Current Environment Variables:";
       "E_EMBEDDING_OFFSET = 10";
       "Expected: 10" ]).
Proof.
  split.
  - intros env run.
    assert ("chebai/preprocessing/reader.py" ∈ ["README.md"; "chebai/preprocessing/reader.py"])
      as Hin by (right; left).
    destruct (verify_constants_checked _ env Hin) as (_ & Hfirst & _).
    apply (Hfirst CLS_TOKEN).
    + vm_compute. discriminate.
    + intros [] Hlt; cbn [position] in Hlt; try lia. reflexivity.
  - intros env run.
    assert ("chebai/preprocessing/reader.py" ∈ ["README.md"; "chebai/preprocessing/reader.py"])
      as Hin by (right; left).
    destruct (verify_constants_checked _ env Hin) as (_ & _ & _ & Hall).
    destruct Hall as [Hstatus Hout].
    + intros []; reflexivity.
    + split; [exact Hstatus | exact Hout].
Defined.

End verify_constants_facts.

(** * Further properties of the code *)

(** ** What the masks keep *)

Section mask_columns.
Import Aligner Torch.

Lemma select_by_membership {V} (P : string → Prop) `{!∀ x, Decision (P x)}
    (A : list string) (v : list V) :
  length v = length A →
  select (zip A v) (map (λ a, bool_decide (P a)) A)
  = filter (λ av : string * V, P av.1) (zip A v).
Proof.
  revert v. induction A as [|a A IH]; intros [|x v] Hlen; try done.
  injection Hlen as Hlen. cbn [zip zip_with map select]. rewrite filter_cons. cbn [fst].
  destruct (decide (P a)) as [HP|HP].
  - rewrite (bool_decide_eq_true_2 _ HP). f_equal. by apply IH.
  - rewrite (bool_decide_eq_false_2 _ HP). by apply IH.
Qed.

Lemma select_names (P : string → Prop) `{!∀ x, Decision (P x)} (A : list string) :
  select A (map (λ a, bool_decide (P a)) A) = filter P A.
Proof.
  induction A as [|a A IH]; [done|].
  cbn [map select]. rewrite filter_cons.
  destruct (decide (P a)) as [HP|HP].
  - rewrite (bool_decide_eq_true_2 _ HP). by f_equal.
  - by rewrite (bool_decide_eq_false_2 _ HP).
Qed.

Lemma select_zip {U V} (a : list U) (v : list V) (m : list bool) :
  select (zip a v) m = zip (select a m) (select v m).
Proof.
  revert v m. induction a as [|x a IH]; intros v m; [by destruct m|].
  destruct v as [|y v], m as [|b m]; cbn [select zip zip_with]; try done.
  - by destruct (if b then x :: select a m else select a m).
  - destruct b; cbn [zip zip_with]; by rewrite <- IH.
Qed.

Lemma filter_pairs_in_common {V} (A B : list string) (v : list V) :
  filter (λ av : string * V, av.1 ∈ common_classes A B) (zip A v)
  = filter (λ av : string * V, av.1 ∈ B) (zip A v).
Proof.
  assert (∀ l : list (string * V), (∀ av, av ∈ l → av.1 ∈ A) →
            filter (λ av : string * V, av.1 ∈ common_classes A B) l
            = filter (λ av : string * V, av.1 ∈ B) l) as Hgen.
  { induction l as [|av l IH]; intros Hl; [done|].
    rewrite !filter_cons. rewrite IH by (intros ? ?; apply Hl; by right).
    pose proof (Hl av ltac:(left)) as Hav.
    pose proof (elem_of_common_classes A B av.1) as Hc.
    destruct (decide (av.1 ∈ common_classes A B)), (decide (av.1 ∈ B)); tauto. }
  apply Hgen. intros [a x] Hin. by apply elem_of_zip_l in Hin.
Qed.

(** X1: indexing with the v200 mask keeps exactly the entries of the
    classes that also occur in v148: a row of values listed class by class
    in v200's order comes out as the values of the common classes, entry
    [k] belonging to the [k]-th common class. *)
Theorem mask_v200_keeps_common {V} (A B : list string) (v : list V) :
  length v = length A →
  ∃ kept,
    bool_index [v] (common_classes_mask_v200 A B) = Ok kept ∧
    bool_index [A] (common_classes_mask_v200 A B) = Ok (common_classes A B) ∧
    length kept = length (common_classes A B) ∧
    zip (common_classes A B) kept
    = filter (λ av : string * V, av.1 ∈ B) (zip A v).
Proof.
  intros Hlen. rewrite mask_v200_row.
  set (m := map (λ a, bool_decide (a ∈ common_classes A B)) A).
  assert (length m = length A) as Hm by (unfold m; by rewrite length_map).
  assert (select A m = common_classes A B) as HA.
  { unfold m. rewrite select_names. rewrite (common_classes_filter A B) at 1.
    apply filter_agree. intros a Ha. rewrite elem_of_common_classes. tauto. }
  exists (select v m).
  split; [apply bool_index_row; congruence|].
  split; [rewrite bool_index_row by congruence; by f_equal|].
  split.
  - rewrite <- HA. rewrite !select_length by congruence. done.
  - rewrite <- HA, <- select_zip. unfold m.
    rewrite select_by_membership by done. apply filter_pairs_in_common.
Qed.

Lemma mask_v200_keeps_common_witness :
  ∃ kept,
    bool_index [[(9 # 10)%Q; (1 # 10)%Q; (7 # 10)%Q]]
      (common_classes_mask_v200 ["23367"; "33259"; "36914"] ["36914"; "23367"]) = Ok kept ∧
    zip (common_classes ["23367"; "33259"; "36914"] ["36914"; "23367"]) kept
    = [("23367", (9 # 10)%Q); ("36914", (7 # 10)%Q)].
Proof.
  destruct (mask_v200_keeps_common ["23367"; "33259"; "36914"] ["36914"; "23367"]
              [(9 # 10)%Q; (1 # 10)%Q; (7 # 10)%Q] eq_refl)
    as (kept & Hkept & _ & _ & Hzip).
  exists kept. split; [exact Hkept|]. rewrite Hzip. reflexivity.
Defined.

End mask_columns.

Section mask_columns_v148.
Import Aligner Torch.

(** X2: indexing with the v148 mask keeps the common classes in v148's own
    order, which is the alignment computed the other way round; the two
    selections hold the same classes, and are rearrangements of each other
    when no vocabulary repeats a class. *)
Theorem mask_v148_keeps_common {V} (A B : list string) (v : list V) :
  length v = length B →
  ∃ kept,
    bool_index [v] (common_classes_mask_v148 A B) = Ok kept ∧
    bool_index [B] (common_classes_mask_v148 A B) = Ok (common_classes B A) ∧
    zip (common_classes B A) kept
    = filter (λ bv : string * V, bv.1 ∈ A) (zip B v) ∧
    (∀ x, x ∈ common_classes B A ↔ x ∈ common_classes A B) ∧
    (NoDup A → NoDup B → common_classes B A ≡ₚ common_classes A B).
Proof.
  intros Hlen. rewrite mask_v148_row.
  set (m := map (λ b, bool_decide (b ∈ common_classes A B)) B).
  assert (length m = length B) as Hm by (unfold m; by rewrite length_map).
  assert (select B m = common_classes B A) as HB.
  { unfold m. rewrite select_names. rewrite (common_classes_filter B A).
    apply filter_agree. intros b Hb. rewrite elem_of_common_classes. tauto. }
  assert (∀ x, x ∈ common_classes B A ↔ x ∈ common_classes A B) as Hsame.
  { intros x. rewrite !elem_of_common_classes. tauto. }
  exists (select v m).
  split; [apply bool_index_row; congruence|].
  split; [rewrite bool_index_row by congruence; by f_equal|].
  split; [|split; [exact Hsame|]].
  - rewrite <- HB, <- select_zip. unfold m.
    rewrite select_by_membership by done.
    rewrite <- (filter_pairs_in_common B A v).
    apply list_filter_iff. intros [b x]. cbn [fst]. symmetry. apply Hsame.
  - intros HA HBd. apply NoDup_Permutation; [| |exact Hsame].
    + rewrite common_classes_filter. by apply NoDup_filter.
    + rewrite common_classes_filter. by apply NoDup_filter.
Qed.

Lemma mask_v148_keeps_common_witness :
  ∃ kept,
    bool_index [[(2 # 10)%Q; (8 # 10)%Q]]
      (common_classes_mask_v148 ["23367"; "33259"; "36914"] ["36914"; "23367"]) = Ok kept ∧
    zip (common_classes ["36914"; "23367"] ["23367"; "33259"; "36914"]) kept
    = [("36914", (2 # 10)%Q); ("23367", (8 # 10)%Q)].
Proof.
  destruct (mask_v148_keeps_common ["23367"; "33259"; "36914"] ["36914"; "23367"]
              [(2 # 10)%Q; (8 # 10)%Q] eq_refl)
    as (kept & Hkept & _ & Hzip & _).
  exists kept. split; [exact Hkept|]. rewrite Hzip. reflexivity.
Defined.

(** X3: aligning a vocabulary with itself keeps every class and gives an
    all-true mask, and aligning the common classes with the second
    vocabulary once more changes nothing. *)
Theorem alignment_is_stable (A B : list string) :
  common_classes A A = A ∧
  common_classes_mask_v200 A A = [replicate (length A) true] ∧
  common_classes (common_classes A B) B = common_classes A B ∧
  common_classes_mask_v200 (common_classes A B) B
  = [replicate (length (common_classes A B)) true].
Proof.
  assert (∀ L M : list string, (∀ x, x ∈ L → x ∈ M) →
            common_classes L M = L ∧
            common_classes_mask_v200 L M = [replicate (length L) true]) as Hsub.
  { intros L M HLM.
    assert (common_classes L M = L) as Hc.
    { rewrite common_classes_filter. induction L as [|x L IH]; [done|].
      rewrite filter_cons, decide_True by (apply HLM; left).
      f_equal. apply IH. intros y Hy. apply HLM. by right. }
    split; [done|]. rewrite mask_v200_row, Hc. f_equal.
    clear Hc HLM. assert (∀ K : list string, (∀ x, x ∈ K → x ∈ L) →
      map (λ a, bool_decide (a ∈ L)) K = replicate (length K) true) as HK.
    { induction K as [|x K IH]; intros HKL; [done|].
      cbn [map length replicate]. rewrite bool_decide_eq_true_2 by (apply HKL; left).
      f_equal. apply IH. intros y Hy. apply HKL. by right. }
    by apply HK. }
  destruct (Hsub A A) as [H1 H2]; [done|].
  destruct (Hsub (common_classes A B) B) as [H3 H4].
  { intros x Hx. by apply elem_of_common_classes in Hx as [_ ?]. }
  done.
Qed.

(** X4: the count of common classes never exceeds the number of v200
    classes, and does not exceed the number of v148 classes as long as v200
    lists no class twice. *)
Theorem common_count_bounds (A B : list string) :
  length (common_classes A B) ≤ length A ∧
  (NoDup A → length (common_classes A B) ≤ length B).
Proof.
  split.
  - rewrite common_classes_filter. apply length_filter.
  - intros HA. apply submseteq_length. apply NoDup_submseteq.
    + rewrite common_classes_filter. by apply NoDup_filter.
    + intros x Hx. by apply elem_of_common_classes in Hx as [_ ?].
Qed.

Lemma common_count_bounds_witness :
  length (common_classes ["23367"; "33259"; "36914"] ["36914"; "23367"]) ≤ 2.
Proof.
  apply (proj2 (common_count_bounds ["23367"; "33259"; "36914"] ["36914"; "23367"])).
  apply (bool_decide_unpack (NoDup _)). vm_compute. exact I.
Defined.

End mask_columns_v148.

(** ** More on the inference runner *)

Section runner_more.
Import Aligner Torch Metrics Runner.
Context {Example : Type}.
Variable model : Example → result (tensor2 Q * tensor2 Z).

Lemma loop_app (mask : option (tensor2 bool))
    (lists : list (tensor2 Q) * list (tensor2 Z)) (d1 d2 : list Example) :
  loop model mask lists (d1 ++ d2)
  = (lists' ← loop model mask lists d1; loop model mask lists' d2).
Proof.
  revert lists. induction d1 as [|row d1 IH]; intros lists; [done|].
  cbn [app loop]. destruct (loop_body model mask lists row) as [lists'|err]; [|done].
  cbn [mbind result_bind]. apply IH.
Qed.

(** X5: an example on which the model raises aborts the run with that
    error, whatever comes after it, once the examples before it have been
    processed. *)
Theorem evaluate_model_aborts_on_failure (C : nat) (mask : option (tensor2 bool))
    (before after : list Example) (e : Example) (err : py_error) :
  (∀ x, x ∈ before → ∃ p l, model x = Ok ([p], [l]) ∧ length p = C ∧ length l = C) →
  (∀ m, mask = Some m → row_widths m = [C]) →
  model e = Raise err →
  evaluate_model model mask (before ++ e :: after) = Raise err.
Proof.
  intros Hbefore Hmask He. unfold evaluate_model.
  rewrite loop_app, (loop_accumulates model C mask Hmask) by done.
  cbn [mbind result_bind loop]. unfold loop_body. rewrite He. done.
Qed.

(** X6: a mask with all entries true changes nothing: the run gives the same
    tensors and scores as the run without mask. *)
Theorem all_true_mask_is_no_mask (C : nat) (data_list : list Example) :
  (∀ e, e ∈ data_list → ∃ p l, model e = Ok ([p], [l]) ∧ length p = C ∧ length l = C) →
  evaluate_model model (Some [replicate C true]) data_list
  = evaluate_model model None data_list.
Proof.
  intros Hmodel. destruct data_list as [|row rest]; [done|].
  assert (∀ m, Some [replicate C true] = Some m → row_widths m = [C]) as Hmask.
  { intros m [= <-]. unfold row_widths. cbn [fmap list_fmap]. by rewrite length_replicate. }
  rewrite (evaluate_model_accumulates model C (Some [replicate C true])) by done.
  rewrite (evaluate_model_accumulates model C None) by done.
  assert (∀ V (f : Example → list V),
            (∀ e, e ∈ row :: rest → length (f e) = C) →
            (λ e, selected (Some [replicate C true]) (f e)) <$> row :: rest
            = (λ e, selected None (f e)) <$> row :: rest) as Hsame.
  { intros V f Hf. apply list_fmap_ext. intros i e Hi.
    unfold selected. cbn [concat]. rewrite app_nil_r.
    apply select_all_true.
    - rewrite length_replicate. apply Hf. by eapply list_elem_of_lookup_2.
    - clear. induction C as [|n IH]; [done|]. cbn [replicate forallb]. done. }
  rewrite (Hsame Q (prediction_row model)), (Hsame Z (label_row model)); [done| |].
  - intros e He. destruct (Hmodel e He) as (p & l & Hrow & Hp & Hl).
    by rewrite (label_row_eq model e p l).
  - intros e He. destruct (Hmodel e He) as (p & l & Hrow & Hp & Hl).
    by rewrite (prediction_row_eq model e p l).
Qed.

(** X7: a mask whose shape differs from the shape of the first example's
    predictions stops the run at that example with an IndexError. *)
Theorem mask_of_wrong_shape_raises (mask : tensor2 bool) (e : Example)
    (rest : list Example) (preds : tensor2 Q) (labels : tensor2 Z) :
  model e = Ok (preds, labels) →
  row_widths preds ≠ row_widths mask →
  evaluate_model model (Some mask) (e :: rest) = Raise IndexError.
Proof.
  intros He Hshape. unfold evaluate_model. cbn [loop]. unfold loop_body.
  rewrite He. cbn [mbind result_bind]. unfold bool_index.
  rewrite (decide_False (P:=row_widths preds = row_widths mask)) by exact Hshape. reflexivity.
Qed.

(** X8: accumulation follows the example list: when the runs end normally
    (at least two selected classes, 0/1 labels at the selected positions),
    the tensors of a list that is cut in two non-empty parts are the tensors
    of the first part followed by those of the second. *)
Theorem evaluate_model_concatenates (C : nat) (mask : option (tensor2 bool))
    (d1 d2 : list Example) :
  d1 ≠ [] → d2 ≠ [] →
  (∀ e, e ∈ d1 ++ d2 → ∃ p l, model e = Ok ([p], [l]) ∧ length p = C ∧ length l = C) →
  (∀ m, mask = Some m → row_widths m = [C]) →
  2 ≤ num_selected mask C →
  (∀ e, e ∈ d1 ++ d2 → Forall binary (selected mask (label_row model e))) →
  ∃ r1 r2 r,
    evaluate_model model mask d1 = Ok r1 ∧
    evaluate_model model mask d2 = Ok r2 ∧
    evaluate_model model mask (d1 ++ d2) = Ok r ∧
    test_preds r = test_preds r1 ++ test_preds r2 ∧
    test_labels r = test_labels r1 ++ test_labels r2.
Proof.
  intros H1 H2 Hmodel Hmask Htwo Hbin.
  assert (d1 ++ d2 ≠ []) as H12 by (destruct d1; done).
  do 3 eexists.
  split; [apply (evaluate_model_ok model C); [done| |done|done|]|].
  { intros e He. apply Hmodel. apply elem_of_app. by left. }
  { intros e He. apply Hbin. apply elem_of_app. by left. }
  split; [apply (evaluate_model_ok model C); [done| |done|done|]|].
  { intros e He. apply Hmodel. apply elem_of_app. by right. }
  { intros e He. apply Hbin. apply elem_of_app. by right. }
  split; [by apply (evaluate_model_ok model C)|].
  cbn [test_preds test_labels]. by rewrite !fmap_app.
Qed.

Lemma loop_unmasked (data_list : list Example)
    (preds_list : list (tensor2 Q)) (labels_list : list (tensor2 Z)) :
  (∀ e, e ∈ data_list → ∃ p l, model e = Ok ([p], [l])) →
  loop model None (preds_list, labels_list) data_list
  = Ok (preds_list ++ ((λ e, [prediction_row model e]) <$> data_list),
        labels_list ++ ((λ e, [label_row model e]) <$> data_list)).
Proof.
  revert preds_list labels_list.
  induction data_list as [|row rest IH]; intros preds_list labels_list Hmodel.
  - cbn [loop fmap list_fmap]. by rewrite !app_nil_r.
  - destruct (Hmodel row ltac:(left)) as (p & l & Hrow).
    cbn [loop]. unfold loop_body at 1. rewrite Hrow. cbn [mbind result_bind].
    rewrite IH by (intros e He; apply Hmodel; by right).
    cbn [fmap list_fmap]. rewrite (prediction_row_eq model row p l), (label_row_eq model row p l) by done.
    by rewrite <- !app_assoc.
Qed.

Lemma cat_ragged {V} (rows : list (list V)) (r1 r2 : list V) :
  r1 ∈ rows → r2 ∈ rows → length r1 ≠ length r2 →
  cat ((λ r, [r]) <$> rows) = Raise RuntimeError.
Proof.
  intros Hr1 Hr2 Hne. destruct rows as [|r rows]; [by apply elem_of_nil in Hr1|].
  unfold cat, same_width. rewrite concat_singletons. cbn [fmap list_fmap].
  destruct (forallb (λ r0 : list V, length r0 =? length r) rows) eqn:Hall; [|done].
  exfalso. rewrite forallb_forall in Hall.
  assert (∀ x, x ∈ r :: rows → length x = length r) as Hsame.
  { intros x Hx. apply elem_of_cons in Hx as [->|Hx]; [done|].
    apply Nat.eqb_eq, Hall. by apply list_elem_of_In. }
  apply Hne. by rewrite (Hsame r1), (Hsame r2).
Qed.

(** X9: without mask, examples whose prediction rows differ in length pass
    the loop and make the concatenation fail: the run raises RuntimeError. *)
Theorem ragged_predictions_raise (data_list : list Example) (e1 e2 : Example) :
  (∀ e, e ∈ data_list → ∃ p l, model e = Ok ([p], [l])) →
  e1 ∈ data_list → e2 ∈ data_list →
  length (prediction_row model e1) ≠ length (prediction_row model e2) →
  evaluate_model model None data_list = Raise RuntimeError.
Proof.
  intros Hmodel He1 He2 Hne. unfold evaluate_model.
  rewrite loop_unmasked by done. cbn [mbind result_bind app].
  rewrite (list_fmap_compose (prediction_row model) (λ r : list Q, [r])).
  rewrite (cat_ragged _ (prediction_row model e1) (prediction_row model e2)); [done| | |done].
  - apply list_elem_of_fmap. by exists e1.
  - apply list_elem_of_fmap. by exists e2.
Qed.

(** X10: with the v200 mask of the aligner, a model with one class per v200
    entry, at least two common classes and 0/1 labels, the run ends normally
    with one row per example and one column per common class. *)
Theorem evaluate_model_common_columns (A B : list string) (data_list : list Example) :
  data_list ≠ [] →
  (∀ e, e ∈ data_list →
     ∃ p l, model e = Ok ([p], [l]) ∧ length p = length A ∧ length l = length A
            ∧ Forall binary l) →
  2 ≤ length (common_classes A B) →
  ∃ r, evaluate_model model (Some (common_classes_mask_v200 A B)) data_list = Ok r ∧
       shape0 (test_preds r) = length data_list ∧
       shape1 (test_preds r) = length (common_classes A B) ∧
       shape0 (test_labels r) = length data_list ∧
       shape1 (test_labels r) = length (common_classes A B).
Proof.
  intros Hne Hmodel Htwo.
  assert (∀ e, e ∈ data_list →
            ∃ p l, model e = Ok ([p], [l]) ∧ length p = length A ∧ length l = length A)
    as Hshape.
  { intros e He. destruct (Hmodel e He) as (p & l & ? & ? & ? & _). by exists p, l. }
  assert (∀ m, Some (common_classes_mask_v200 A B) = Some m → row_widths m = [length A])
    as Hmask.
  { intros m [= <-]. unfold common_classes_mask_v200, row_widths.
    cbn [fmap list_fmap]. by rewrite length_map. }
  pose proof (accumulated_preds_width model _ _ data_list Hshape Hmask) as HP.
  pose proof (accumulated_labels_width model _ _ data_list Hshape Hmask) as HL.
  eexists. split.
  { apply (evaluate_model_ok model (length A)); [done|done|done| |].
    - unfold num_selected. by rewrite mask_v200_sum.
    - intros e He. destruct (Hmodel e He) as (p & l & Hrow & _ & _ & Hbin).
      rewrite (label_row_eq model e p l) by done. by apply selected_Forall. }
  cbn [test_preds test_labels]. unfold shape0. rewrite !length_fmap.
  destruct data_list as [|row rest]; [done|].
  cbn [fmap list_fmap] in HP, HL |- *.
  apply Forall_cons in HP as [HP _]. apply Forall_cons in HL as [HL _].
  cbn [shape1]. rewrite HP, HL. unfold num_selected. by rewrite mask_v200_sum.
Qed.

(** X19: with fewer than two selected classes the metric objects cannot be
    constructed: after the loop and the concatenations the run raises
    ValueError. *)
Theorem too_few_classes_raise (C : nat) (mask : option (tensor2 bool))
    (data_list : list Example) :
  data_list ≠ [] →
  (∀ e, e ∈ data_list → ∃ p l, model e = Ok ([p], [l]) ∧ length p = C ∧ length l = C) →
  (∀ m, mask = Some m → row_widths m = [C]) →
  num_selected mask C < 2 →
  evaluate_model model mask data_list = Raise ValueError.
Proof.
  intros Hne Hmodel Hmask Hfew.
  rewrite (evaluate_model_accumulates model C) by done.
  unfold report_scores, MultilabelF1Score_new.
  rewrite (accumulated_width model C) by done.
  destruct (Nat.ltb_spec (num_selected mask C) 2) as [_|Hge]; [done|lia].
Qed.

(** X20: with at least two selected classes, a label other than 0 and 1 at a
    selected position makes the call of the metric fail: the run raises
    RuntimeError. *)
Theorem label_outside_01_raises (C : nat) (mask : option (tensor2 bool))
    (data_list : list Example) (e : Example) (l : Z) :
  (∀ x, x ∈ data_list → ∃ p l, model x = Ok ([p], [l]) ∧ length p = C ∧ length l = C) →
  (∀ m, mask = Some m → row_widths m = [C]) →
  2 ≤ num_selected mask C →
  e ∈ data_list → l ∈ selected mask (label_row model e) → l ≠ 0%Z → l ≠ 1%Z →
  evaluate_model model mask data_list = Raise RuntimeError.
Proof.
  intros Hmodel Hmask Htwo He Hl H0 H1.
  assert (data_list ≠ []) as Hne by (intros ->; by apply elem_of_nil in He).
  rewrite (evaluate_model_accumulates model C) by done.
  unfold report_scores, MultilabelF1Score_new.
  rewrite (accumulated_width model C) by done.
  destruct (Nat.ltb_spec (num_selected mask C) 2) as [Hlt|_]; [lia|].
  cbn [mbind result_bind]. unfold metric_call. cbn [metric_labels metric_average].
  rewrite (bool_decide_eq_true_2 _ (accumulated_same_shape model C mask data_list Hmodel Hmask)).
  rewrite (accumulated_width model C) by done. rewrite Nat.eqb_refl. cbn [negb].
  assert (forallb (forallb is_binary)
            ((λ x, selected mask (label_row model x)) <$> data_list) = false) as ->; [|done].
  apply not_true_iff_false. intros Hall. rewrite forallb_forall in Hall.
  specialize (Hall (selected mask (label_row model e))).
  rewrite forallb_forall in Hall.
  assert (is_binary l = true) as Hb.
  { apply Hall; [|by apply list_elem_of_In].
    apply list_elem_of_In, list_elem_of_fmap. by exists e. }
  apply is_binary_spec in Hb as [? | ?]; done.
Qed.

End runner_more.

Section runner_more_witnesses.
Import Aligner Torch Metrics Runner.

(** A model that fails on the example 7 and answers like [toy_model]
    otherwise, and one whose rows grow with the example. *)
Lemma evaluate_model_aborts_on_failure_witness :
  evaluate_model (λ e : nat, if Nat.eqb e 7 then Raise RuntimeError else toy_model e)
    (Some [[true; false]]) ([1; 0] ++ 7 :: [1]) = Raise RuntimeError.
Proof.
  apply (evaluate_model_aborts_on_failure _ 2).
  - intros x Hx. apply elem_of_cons in Hx as [->|Hx];
      [|apply list_elem_of_singleton in Hx as ->]; eexists _, _; (split; [reflexivity|done]).
  - intros m [= <-]. reflexivity.
  - reflexivity.
Defined.

Lemma all_true_mask_is_no_mask_witness :
  evaluate_model toy_model (Some [replicate 2 true]) [1; 0; 1]
  = evaluate_model toy_model None [1; 0; 1].
Proof.
  apply (all_true_mask_is_no_mask toy_model 2).
  intros e _. eexists _, _. split; [reflexivity|done].
Defined.

Lemma mask_of_wrong_shape_raises_witness :
  evaluate_model toy_model (Some [[true; false; true]]) [1; 0] = Raise IndexError.
Proof.
  eapply (mask_of_wrong_shape_raises toy_model); [reflexivity|discriminate].
Defined.

Lemma evaluate_model_concatenates_witness :
  ∃ r1 r2 r,
    evaluate_model toy_model3 (Some [[true; false; true]]) [1; 0] = Ok r1 ∧
    evaluate_model toy_model3 (Some [[true; false; true]]) [1] = Ok r2 ∧
    evaluate_model toy_model3 (Some [[true; false; true]]) ([1; 0] ++ [1]) = Ok r ∧
    test_preds r = test_preds r1 ++ test_preds r2 ∧
    test_labels r = test_labels r1 ++ test_labels r2.
Proof.
  apply (evaluate_model_concatenates toy_model3 3 (Some [[true; false; true]]));
    try discriminate.
  - intros e _. eexists _, _. split; [reflexivity|done].
  - intros m [= <-]. reflexivity.
  - vm_compute. lia.
  - apply toy_model3_binary.
Defined.

Lemma ragged_predictions_raise_witness :
  evaluate_model (λ e : nat, Ok ([replicate e 1%Q], [replicate e 1%Z])) None [1; 2]
  = Raise RuntimeError.
Proof.
  apply (ragged_predictions_raise _ [1; 2] 1 2).
  - intros e _. by eexists _, _.
  - left.
  - right. left.
  - vm_compute. discriminate.
Defined.

Lemma evaluate_model_common_columns_witness :
  ∃ r, evaluate_model toy_model3
         (Some (common_classes_mask_v200 ["23367"; "33259"; "36914"] ["36914"; "23367"]))
         [1; 0; 1] = Ok r ∧
       shape0 (test_preds r) = 3 ∧ shape1 (test_preds r) = 2.
Proof.
  destruct (evaluate_model_common_columns toy_model3
              ["23367"; "33259"; "36914"] ["36914"; "23367"] [1; 0; 1])
    as (r & Hr & H0 & H1 & _).
  - discriminate.
  - intros e He. eexists _, _. split; [reflexivity|]. split; [done|]. split; [done|].
    apply (toy_model3_binary None e He).
  - vm_compute. lia.
  - exists r. split; [exact Hr|]. split; [exact H0 | exact H1].
Defined.

Lemma too_few_classes_raise_witness :
  evaluate_model toy_model (Some [[true; false]]) [1; 0; 1] = Raise ValueError.
Proof.
  apply (too_few_classes_raise toy_model 2).
  - discriminate.
  - intros e _. eexists _, _. split; [reflexivity|done].
  - intros m [= <-]. reflexivity.
  - vm_compute. lia.
Defined.

Lemma label_outside_01_raises_witness :
  evaluate_model toy_model None [1; 2] = Raise RuntimeError.
Proof.
  apply (label_outside_01_raises toy_model 2 None [1; 2] 2 2%Z).
  - intros e _. eexists _, _. split; [reflexivity|done].
  - discriminate.
  - vm_compute. lia.
  - right. left.
  - left.
  - discriminate.
  - discriminate.
Defined.

End runner_more_witnesses.

(** ** More on the constants check *)

Section verify_constants_more.
Import VerifyConstants.

Lemma char_test (p c : ascii) :
  (Ascii.eqb p "."%char || Ascii.eqb p c) = true ↔ p = "."%char ∨ p = c.
Proof. rewrite orb_true_iff, !Ascii.eqb_eq. done. Qed.

Lemma match_here_spec (pattern line : string) :
  match_here pattern line = true ↔
  ∃ word after, line = word +:+ after ∧ matches pattern word.
Proof.
  revert line. induction pattern as [|p pattern IH]; intros line.
  - split; [intros _; by exists "", line|done].
  - destruct line as [|c line]; cbn [match_here].
    + split; [done|]. intros ([|c word] & after & Heq & Hm); done.
    + rewrite andb_true_iff, char_test, IH. split.
      * intros (Hc & word & after & -> & Hm). by exists (String c word), after.
      * intros ([|c' word] & after & Heq & Hm); [done|].
        rewrite string_app_cons in Heq. injection Heq as -> ->.
        destruct Hm as [Hc Hm]. split; [done|]. by exists word, after.
Qed.

Lemma match_anywhere_spec (pattern line : string) :
  match_anywhere pattern line = true ↔ contains_match pattern line.
Proof.
  unfold contains_match. induction line as [|c line IH]; cbn [match_anywhere].
  - rewrite orb_false_r, match_here_spec. split.
    + intros (word & after & Heq & Hm). by exists "", word, after.
    + intros ([|? before] & word & after & Heq & Hm); [|done].
      by exists word, after.
  - rewrite orb_true_iff, match_here_spec, IH. split.
    + intros [(word & after & Heq & Hm) | (before & word & after & Heq & Hm)].
      * by exists "", word, after.
      * exists (String c before), word, after. rewrite string_app_cons. by rewrite Heq.
    + intros ([|c' before] & word & after & Heq & Hm).
      * left. by exists word, after.
      * right. rewrite string_app_cons in Heq. injection Heq as -> ->.
        by exists before, word, after.
Qed.

Lemma matches_itself (pattern : string) : matches pattern pattern.
Proof. induction pattern as [|p pattern IH]; [done|]. split; [by right|done]. Qed.

Lemma grep_q_spec (pattern : string) (lines : list string) :
  grep_q pattern lines = true ↔ ∃ line, line ∈ lines ∧ contains_match pattern line.
Proof.
  unfold grep_q. rewrite existsb_exists. split.
  - intros (line & Hin & Hm). exists line. split; [by apply list_elem_of_In|].
    by apply match_anywhere_spec.
  - intros (line & Hin & Hm). exists line. split; [by apply list_elem_of_In|].
    by apply match_anywhere_spec.
Qed.

(** X11: the test for a changed reader module succeeds exactly when some
    changed path contains a word that agrees with the reader path up to the
    character at its dot; so every path that contains the reader path
    triggers the check, wherever it lies. *)
Theorem grep_finds_reader_path (changed_files : list string) :
  (grep_q file_name changed_files = true ↔
   ∃ line, line ∈ changed_files ∧ contains_match file_name line) ∧
  (∀ before after,
     before +:+ file_name +:+ after ∈ changed_files →
     grep_q file_name changed_files = true).
Proof.
  split; [apply grep_q_spec|].
  intros before after Hin. apply grep_q_spec.
  exists (before +:+ file_name +:+ after). split; [done|].
  exists before, file_name, after. split; [done | apply matches_itself].
Qed.

Lemma grep_finds_reader_path_witness :
  grep_q file_name ["setup.py"; "backup/chebai/preprocessing/reader.py.orig"] = true.
Proof.
  apply (proj2 (grep_finds_reader_path _) "backup/" ".orig"). right. left.
Defined.

(** X12: the step ends with status 0 or 1, and with status 1 exactly when a
    changed path contains a match of the reader path and one of the four
    exported values differs from its expected value. *)
Theorem verify_constants_fails_iff (changed_files : list string)
    (env : gmap string string) :
  let run := verify_constants changed_files env in
  (exit_status run = 0 ∨ exit_status run = 1) ∧
  (exit_status run = 1 ↔
   (∃ line, line ∈ changed_files ∧ contains_match file_name line) ∧
   (∃ c, exported env c ≠ expected c)).
Proof.
  intros run. unfold run. rewrite <- grep_q_spec.
  destruct (grep_q file_name changed_files) eqn:Hgrep.
  - rewrite verify_constants_first_mismatch by done.
    destruct (first_mismatch env) as [c|] eqn:E; cbn [exit_status].
    + split; [by right|]. split; [|done]. intros _. split; [done|].
      exists c. by apply first_mismatch_some.
    + split; [by left|]. split; [done|]. intros [_ [c Hc]].
      exfalso. apply Hc. by apply first_mismatch_none.
  - unfold verify_constants. rewrite Hgrep. cbn [exit_status].
    split; [by left|]. split; [done|]. by intros [? _].
Qed.

Lemma verify_constants_fails_iff_witness :
  exit_status (verify_constants ["chebai/preprocessing/reader.py"]
                 (<["E_EMBEDDING_OFFSET" := "11"]> ∅)) = 1.
Proof.
  apply (proj2 (verify_constants_fails_iff _ _)). split.
  - exists "chebai/preprocessing/reader.py". split; [left|].
    exists "", file_name, "". split; [reflexivity | apply matches_itself].
  - exists EMBEDDING_OFFSET. vm_compute. discriminate.
Defined.

(** X13: the comparisons stop at the first difference: when a constant
    differs and all constants compared before it agree, the output is the
    preamble followed by the one line naming that constant, whatever the
    values of the constants after it. *)
Theorem verify_constants_reports_first (changed_files : list string)
    (env : gmap string string) (c : constant) :
  grep_q file_name changed_files = true →
  exported env c ≠ expected c →
  (∀ c', position c' < position c → exported env c' = expected c') →
  verify_constants changed_files env
  = {| stdout := preamble env
                 ++ [mismatch_message (name c) (exported env c) (expected c)];
       exit_status := 1 |}.
Proof.
  intros Hgrep Hc Hbefore. rewrite verify_constants_first_mismatch by done.
  by rewrite (first_mismatch_at env c).
Qed.

Lemma verify_constants_reports_first_witness :
  let env : gmap string string :=
    <["E_EMBEDDING_OFFSET" := "10"]> (<["E_CLS_TOKEN" := "3"]>
      (<["E_MASK_TOKEN_INDEX" := "7"]> ∅)) in
  verify_constants ["chebai/preprocessing/reader.py"] env
  = {| stdout := preamble env
                 ++ [mismatch_message (name CLS_TOKEN) (exported env CLS_TOKEN)
                       (expected CLS_TOKEN)];
       exit_status := 1 |}.
Proof.
  intros env. apply (verify_constants_reports_first _ env CLS_TOKEN).
  - reflexivity.
  - vm_compute. discriminate.
  - intros [] Hlt; cbn [position] in Hlt; try lia. reflexivity.
Defined.

End verify_constants_more.

(** ** Reading class files *)

Section reading.
Import Aligner ResultsNotebook.

Lemma readlines_from_joined (text cur : string) :
  foldr String.append "" (readlines_from cur text) = cur +:+ text.
Proof.
  revert cur. induction text as [|c text IH]; intros cur; cbn [readlines_from].
  - destruct (String.eqb_spec cur "") as [->|_]; [done|].
    cbn [foldr]. by rewrite !string_app_empty_r.
  - destruct (Ascii.eqb c newline).
    + cbn [foldr]. rewrite IH, string_app_nil_l, string_app_assoc. done.
    + rewrite IH, string_app_assoc. done.
Qed.

Lemma readlines_from_shape (text cur : string) :
  newline_free cur = true →
  ∀ i line, readlines_from cur text !! i = Some line →
    ∃ body, newline_free body = true ∧
      (line = body +:+ String newline "" ∨
       (line = body ∧ body ≠ "" ∧ S i = length (readlines_from cur text))).
Proof.
  revert cur. induction text as [|c text IH]; intros cur Hcur i line; cbn [readlines_from].
  - destruct (String.eqb_spec cur "") as [->|Hne]; [done|].
    destruct i as [|i]; [|done]. intros [= <-]. exists cur. split; [done|]. by right.
  - destruct (Ascii.eqb_spec c newline) as [->|Hc].
    + destruct i as [|i].
      * intros [= <-]. exists cur. split; [done|]. by left.
      * cbn [lookup list_lookup]. intros Hi.
        destruct (IH "" eq_refl i line Hi) as (body & Hb & [Hl | (Hl & Hne & Hlast)]).
        -- exists body. split; [done|]. by left.
        -- exists body. split; [done|]. right. cbn [length]. by rewrite <- Hlast.
    + apply IH. rewrite newline_free_app, Hcur. cbn [newline_free].
      apply Ascii.eqb_neq in Hc. by rewrite Hc.
Qed.

(** X15: [readlines] loses nothing: the lines joined again are the text; a
    line is a newline-free body followed by a newline, except that the last
    line may be a non-empty body without terminator. *)
Theorem readlines_partitions_text (text : string) :
  foldr String.append "" (readlines text) = text ∧
  (∀ i line, readlines text !! i = Some line →
     ∃ body, newline_free body = true ∧
       (line = body +:+ String newline "" ∨
        (line = body ∧ body ≠ "" ∧ S i = length (readlines text)))).
Proof.
  split.
  - unfold readlines. by rewrite readlines_from_joined.
  - by apply readlines_from_shape.
Qed.

Lemma readlines_partitions_text_witness :
  ∃ body, newline_free body = true ∧
    ("36914" = body +:+ String newline "" ∨
     ("36914" = body ∧ body ≠ "" ∧
      2 = length (readlines ("23367" +:+ String newline "36914")))).
Proof.
  apply (proj2 (readlines_partitions_text ("23367" +:+ String newline "36914")) 1).
  reflexivity.
Defined.

End reading.

Section reading_classes.
Import Aligner ResultsNotebook.

Lemma rstrip_space_end (s : string) (c : ascii) :
  py_isspace c = true → rstrip (s +:+ String c "") = rstrip s.
Proof.
  intros Hc. induction s as [|x s IH].
  - rewrite string_app_nil_l. cbn [rstrip]. by rewrite Hc.
  - rewrite string_app_cons. cbn [rstrip]. by rewrite IH.
Qed.

Lemma strip_terminated (s : string) : strip (s +:+ String newline "") = strip s.
Proof. unfold strip. by rewrite rstrip_space_end. Qed.

Lemma plain_newline_free (s : string) : plain s = true → newline_free s = true.
Proof.
  induction s as [|c s IH]; [done|]. cbn [plain newline_free].
  rewrite !andb_true_iff. intros [[Hc _] Hs]. split; [|by apply IH].
  destruct (Ascii.eqb_spec c newline) as [->|]; done.
Qed.

Lemma strip_plain (s : string) : plain s = true → strip s = s.
Proof.
  intros Hs. unfold strip.
  assert (rstrip s = s) as ->.
  { induction s as [|c s IH]; [done|]. cbn [plain] in Hs.
    apply andb_true_iff in Hs as [Hc Hs]. apply andb_true_iff in Hc as [Hc _].
    apply negb_true_iff in Hc. cbn [rstrip]. rewrite IH by done.
    destruct s; [by rewrite Hc | done]. }
  destruct s as [|c s]; [done|]. cbn [plain] in Hs.
  apply andb_true_iff in Hs as [Hc _]. apply andb_true_iff in Hc as [Hc _].
  apply negb_true_iff in Hc. cbn [lstrip]. by rewrite Hc.
Qed.

Lemma readlines_lines_of (names : list string) :
  Forall (λ name, newline_free name = true) names →
  readlines (lines_of names) = map (λ name, name +:+ String newline "") names.
Proof.
  unfold readlines. induction 1 as [|name names Hname Hnames IH]; [done|].
  cbn [lines_of foldr map]. rewrite readlines_from_line by done.
  rewrite string_app_nil_l. f_equal. exact IH.
Qed.

Lemma final_newline_from (text cur : string) :
  (text = "" → cur ≠ "") → ends_with_newline text = false →
  map strip (readlines_from cur (text +:+ String newline ""))
  = map strip (readlines_from cur text).
Proof.
  revert cur. induction text as [|c text IH]; intros cur Hcur Hend.
  - rewrite string_app_nil_l. cbn [readlines_from]. rewrite Ascii.eqb_refl.
    destruct (String.eqb_spec cur "") as [->|_]; [by destruct Hcur|].
    cbn [readlines_from map]. by rewrite strip_terminated.
  - rewrite string_app_cons. cbn [readlines_from].
    assert (ends_with_newline text = false) as Hend'.
    { destruct text; [done|]. exact Hend. }
    destruct (Ascii.eqb_spec c newline) as [->|Hc].
    + cbn [map]. f_equal. apply IH; [|done].
      intros ->. cbn [ends_with_newline] in Hend. by rewrite Ascii.eqb_refl in Hend.
    + apply IH; [|done]. intros _. by destruct cur.
Qed.

(** X16: the class list does not depend on a newline at the end of the file:
    a non-empty text without final newline gives the same classes with the
    newline added. *)
Theorem read_classes_ignores_final_newline (text : string) :
  text ≠ "" → ends_with_newline text = false →
  read_classes (text +:+ String newline "") = read_classes text.
Proof.
  intros Hne Hend. unfold read_classes, readlines. by apply final_newline_from.
Qed.

Lemma read_classes_ignores_final_newline_witness :
  read_classes (("23367" +:+ String newline "36914") +:+ String newline "")
  = read_classes ("23367" +:+ String newline "36914").
Proof.
  apply read_classes_ignores_final_newline; [discriminate | reflexivity].
Defined.

Lemma lines_of_app (names : list string) (rest : string) :
  foldr (λ name rest, name +:+ String newline rest) rest names
  = lines_of names +:+ rest.
Proof.
  induction names as [|name names IH]; [done|].
  cbn [lines_of foldr]. rewrite IH. fold (lines_of names).
  rewrite string_app_assoc. by rewrite string_app_cons.
Qed.

Lemma lines_of_snoc (names : list string) (last : string) :
  lines_of (names ++ [last]) = (lines_of names +:+ last) +:+ String newline "".
Proof.
  unfold lines_of at 1. rewrite foldr_app. cbn [foldr]. rewrite lines_of_app.
  by rewrite string_app_assoc.
Qed.

Lemma ends_with_newline_app (a b : string) :
  b ≠ "" → ends_with_newline (a +:+ b) = ends_with_newline b.
Proof.
  intros Hb. induction a as [|x a IH]; [done|].
  rewrite string_app_cons. cbn [ends_with_newline].
  destruct (a +:+ b) eqn:E; [destruct a, b; done|]. exact IH.
Qed.

Lemma plain_no_final_newline (s : string) :
  plain s = true → ends_with_newline s = false.
Proof.
  induction s as [|c s IH]; [done|]. cbn [plain ends_with_newline].
  rewrite !andb_true_iff. intros [[Hc _] Hs]. destruct s; [|by apply IH].
  destruct (Ascii.eqb_spec c newline) as [->|]; done.
Qed.

(** X17: names made of ASCII characters other than white space, written one
    per line, are read back unchanged, whether or not the last line is
    terminated. *)
Theorem read_classes_round_trip (names : list string) (last : string) :
  Forall (λ name, plain name = true) names →
  plain last = true → last ≠ "" →
  read_classes (lines_of (names ++ [last])) = names ++ [last] ∧
  read_classes (lines_of names +:+ last) = names ++ [last].
Proof.
  intros Hnames Hlast Hne.
  assert (read_classes (lines_of (names ++ [last])) = names ++ [last]) as Hfull.
  { unfold read_classes. rewrite readlines_lines_of.
    - rewrite map_map. rewrite <- (map_id (names ++ [last])) at 2.
      apply map_ext_in. intros name Hin. rewrite strip_terminated.
      apply strip_plain. apply in_app_iff in Hin as [Hin|[<-|[]]]; [|done].
      rewrite Forall_forall in Hnames. apply Hnames. by apply list_elem_of_In.
    - apply Forall_app. split.
      + eapply Forall_impl; [exact Hnames|]. intros name. apply plain_newline_free.
      + constructor; [by apply plain_newline_free | constructor]. }
  split; [exact Hfull|].
  rewrite <- Hfull, lines_of_snoc. symmetry.
  unfold read_classes, readlines. apply final_newline_from.
  - intros E. destruct (lines_of names), last; done.
  - rewrite ends_with_newline_app by done. by apply plain_no_final_newline.
Qed.

Lemma read_classes_round_trip_witness :
  read_classes (lines_of (["23367"; "33259"] ++ ["36914"])) = ["23367"; "33259"] ++ ["36914"] ∧
  read_classes (lines_of ["23367"; "33259"] +:+ "36914") = ["23367"; "33259"] ++ ["36914"].
Proof.
  apply read_classes_round_trip; [repeat constructor | reflexivity | discriminate].
Defined.

Lemma common_classes_terminated (A B : list string) :
  common_classes (map (λ n, n +:+ String newline "") A)
                 (map (λ n, n +:+ String newline "") B)
  = map (λ n, n +:+ String newline "") (common_classes A B).
Proof.
  rewrite !common_classes_filter. induction A as [|a A IH]; [done|].
  cbn [map]. rewrite !filter_cons, IH.
  assert (a +:+ String newline "" ∈ map (λ n, n +:+ String newline "") B ↔ a ∈ B) as Hin.
  { rewrite !list_elem_of_In, in_map_iff. split.
    - intros (b & Hb & Hin). apply terminator_cancel in Hb. by subst.
    - intros Hin. by exists a. }
  destruct (decide (a ∈ B)) as [Ha|Ha].
  - rewrite decide_True by by apply Hin. done.
  - rewrite decide_False; [done|]. intros H. by apply Ha, Hin.
Qed.

(** X18: when both class files terminate every line, comparing the raw
    lines amounts to comparing the names: the common lines are the common
    names with their terminator, and both masks are those of the names. *)
Theorem terminated_files_align_by_name (A B : list string) :
  Forall (λ name, newline_free name = true) A →
  Forall (λ name, newline_free name = true) B →
  let v200_classes := readlines (lines_of A) in
  let v148_classes := readlines (lines_of B) in
  common_classes v200_classes v148_classes
  = map (λ n, n +:+ String newline "") (common_classes A B) ∧
  common_classes_mask_v200 v200_classes v148_classes = common_classes_mask_v200 A B ∧
  common_classes_mask_v148 v200_classes v148_classes = common_classes_mask_v148 A B.
Proof.
  intros HA HB v200_classes v148_classes. unfold v200_classes, v148_classes.
  rewrite !readlines_lines_of by done.
  assert (∀ L : list string,
            map (λ c, py_in c (map (λ n, n +:+ String newline "") (common_classes A B)))
                (map (λ n, n +:+ String newline "") L)
            = map (λ c, py_in c (common_classes A B)) L) as Hmask.
  { intros L. rewrite map_map. apply List.map_ext. intros c. rewrite !py_in_spec.
    apply bool_decide_ext. rewrite !list_elem_of_In, in_map_iff. split.
    - intros (b & Hb & Hin). apply terminator_cancel in Hb. by subst.
    - intros Hin. by exists c. }
  split; [apply common_classes_terminated|].
  unfold common_classes_mask_v200, common_classes_mask_v148.
  rewrite !common_classes_terminated, !Hmask. done.
Qed.

Lemma terminated_files_align_by_name_witness :
  common_classes (readlines (lines_of ["23367"; "33259"; "36914"]))
                 (readlines (lines_of ["36914"; "23367"]))
  = map (λ n, n +:+ String newline "")
        (common_classes ["23367"; "33259"; "36914"] ["36914"; "23367"]).
Proof.
  apply (terminated_files_align_by_name ["23367"; "33259"; "36914"] ["36914"; "23367"]);
    repeat constructor.
Defined.

End reading_classes.
